(** * Knee-Braced: the exercise session coordinator and its network adapters

    A shallow embedding of

    - [PatientDashboard] (the React component holding the session slot, the
      start/complete handlers, the reconciliation effect and the
      recommendation fetcher), and
    - [server/routes.ts] (the webhook forwarder and [safeParseJSON]),

    followed by the properties the design document states about them.

    Modelling conventions.

    - The component's [useState] cells and the observables of the device hook
      form one record, [State].  A handler reads the cells it closes over
      when it is called (a click calls the handler of the latest render) and
      writes them through the setters.  The synchronous calls ([toast],
      [console.error], [stopRecording], [setTimeout]) are taken not to
      throw.
    - A handler is a program, [Prog]: a tree of state updates, calls to the
      outside and [await]s, with JavaScript's [try]/[catch]/[finally].  A
      thrown exception keeps the state and the log of calls, as in
      JavaScript.
    - Everything outside the component (device gateway, record store, HTTP,
      clock, [JSON.parse]) is an oracle, [World]: a call is appended to the
      history of issued calls and the oracle answers from that history, so
      the outcome of every single call is arbitrary.
    - A program is given meaning twice.  [run] executes one handler alone,
      every awaited call settling at once.  [Turn] is the event loop: a
      handler runs up to its next [await] and is suspended there, other
      handlers and settlements take their turns in any order, and the
      effects of the component run after every turn. *)

From Stdlib Require Import String List ZArith QArith Bool.
Import ListNotations.

Local Open Scope string_scope.
Local Open Scope list_scope.
Local Open Scope Z_scope.

Set Implicit Arguments.

(* ================================================================== *)
(** * JavaScript values *)
(* ================================================================== *)

(** A thrown value, as far as the code observes one: [error instanceof
    Error], [error?.message] and [String(error)]. *)
Record JsError := mkError {
  instanceof_Error : bool;
  message : option string;
  toString : string
}.

(** The settlement of a call: a value, or a thrown / rejected error. *)
Inductive Result (A : Type) : Type :=
| Ok (a : A)
| Throw (e : JsError).
Arguments Ok {A} a.
Arguments Throw {A} e.

(** JSON values as [JSON.parse] and [response.json()] deliver them; an
    object is its list of own properties. *)
#[local] Unset Elimination Schemes.
Inductive json : Type :=
| JNull
| JBool (b : bool)
| JNum (q : Q)
| JStr (s : string)
| JArr (items : list json)
| JObj (fields : list (string * json)).
#[local] Set Elimination Schemes.

Fixpoint assoc {A} (k : string) (l : list (string * A)) : option A :=
  match l with
  | [] => None
  | (k', v) :: rest => if String.eqb k k' then Some v else assoc k rest
  end.

(** [data?.k] for a property name [k] that no prototype defines (the names
    read by the code are [recommendations] and [recommendedExercise]):
    [None] is [undefined]. *)
Definition prop (k : string) (data : json) : option json :=
  match data with
  | JObj fields => assoc k fields
  | _ => None
  end.

(** ToBoolean on a string. *)
Definition truthy_string (s : string) : bool := negb (String.eqb s "").

(** ToBoolean on a [string | null] cell. *)
Definition truthy (o : option string) : bool :=
  match o with
  | Some s => truthy_string s
  | None => false
  end.

(** ToBoolean on a possibly undefined JSON value. *)
Definition truthy_json (o : option json) : bool :=
  match o with
  | None => false
  | Some JNull => false
  | Some (JBool b) => b
  | Some (JNum q) => negb (Qnum q =? 0)
  | Some (JStr s) => truthy_string s
  | Some (JArr _) => true
  | Some (JObj _) => true
  end.

(** [Array.isArray]. *)
Definition isArray (o : option json) : bool :=
  match o with
  | Some (JArr _) => true
  | _ => false
  end.

(** [a || b] on strings read through [?.]. *)
Definition or_default (o : option string) (d : string) : string :=
  match o with
  | Some s => if truthy_string s then s else d
  | None => d
  end.

(* ================================================================== *)
(** * Data model *)
(* ================================================================== *)

Inductive Status := assigned | in_progress | completed.

Definition Status_eqb (a b : Status) : bool :=
  match a, b with
  | assigned, assigned => true
  | in_progress, in_progress => true
  | completed, completed => true
  | _, _ => false
  end.

Record AssignedExercise := mkAssigned {
  id : string;
  exerciseId : string;
  exerciseName : string;
  targetAngleMin : Z;
  targetAngleMax : Z;
  targetReps : Z;
  targetDuration : Z;
  status : Status;
  assignedAt : Z;
  completedAt : option Z
}.

Record UserProfile := mkProfile { uid : string }.

(** The partial-field objects handed to the record store. *)
Record AssignedPatch := mkAssignedPatch {
  ap_status : Status;
  ap_completedAt : option Z
}.

Record ProgressFields := mkProgressFields {
  pf_patientId : string;
  pf_exerciseId : string;
  pf_assignedExerciseId : string;
  pf_sessionStartTime : Z
}.

Record ProgressPatch := mkProgressPatch {
  pp_status : Status;
  pp_sessionEndTime : Z;
  pp_completedAt : Z
}.

(** An HTTP response as the code reads it: [status], [ok] and the body,
    whose download may itself fail. *)
Record Response := mkResponse {
  r_status : Z;
  r_ok : bool;
  r_text : Result string
}.

(* ================================================================== *)
(** * Programs *)
(* ================================================================== *)

Section Programs.

(** [St]: the mutable state; [W]: the environment; [Ev]: the entries of the
    log of calls; [Call R]: the asynchronous calls that settle with an
    [R]. *)
Variables (St W Ev : Type) (Call : Type -> Type).

Inductive Prog (A : Type) : Type :=
| Ret (a : A)
| Raise (e : JsError)
| Closure (k : St -> Prog A)
| Update (f : St -> St) (k : Prog A)
| Emit (e : Ev) (k : Prog A)
| Query (R : Type) (q : W -> list Ev -> R) (k : R -> Prog A)
| Await (R : Type) (c : Call R) (k : Result R -> Prog A).

Arguments Ret {A} a.
Arguments Raise {A} e.
Arguments Closure {A} k.
Arguments Update {A} f k.
Arguments Emit {A} e k.
Arguments Query {A R} q k.
Arguments Await {A R} c k.

Fixpoint bind {A B} (p : Prog A) (k : A -> Prog B) : Prog B :=
  match p with
  | Ret a => k a
  | Raise e => Raise e
  | Closure f => Closure (fun s => bind (f s) k)
  | Update f p' => Update f (bind p' k)
  | Emit e p' => Emit e (bind p' k)
  | Query q f => Query q (fun r => bind (f r) k)
  | Await c f => Await c (fun r => bind (f r) k)
  end.

(** [try { body } catch (error) { handler error }] *)
Fixpoint try_catch {A} (body : Prog A) (handler : JsError -> Prog A)
  : Prog A :=
  match body with
  | Ret a => Ret a
  | Raise e => handler e
  | Closure f => Closure (fun s => try_catch (f s) handler)
  | Update f p' => Update f (try_catch p' handler)
  | Emit e p' => Emit e (try_catch p' handler)
  | Query q f => Query q (fun r => try_catch (f r) handler)
  | Await c f => Await c (fun r => try_catch (f r) handler)
  end.

(** [try { body } finally { final }]: [final] runs on both exits; its own
    exception, if any, replaces the settlement of [body]. *)
Fixpoint try_finally {A} (body : Prog A) (final : Prog unit) : Prog A :=
  match body with
  | Ret a => bind final (fun _ => Ret a)
  | Raise e => bind final (fun _ => Raise e)
  | Closure f => Closure (fun s => try_finally (f s) final)
  | Update f p' => Update f (try_finally p' final)
  | Emit e p' => Emit e (try_finally p' final)
  | Query q f => Query q (fun r => try_finally (f r) final)
  | Await c f => Await c (fun r => try_finally (f r) final)
  end.

(** The cells a handler closes over. *)
Definition closure : Prog St := Closure (fun s => Ret s).

Definition modify (f : St -> St) : Prog unit := Update f (Ret tt).

(** A synchronous call that cannot fail. *)
Definition emit (e : Ev) : Prog unit := Emit e (Ret tt).

(** A synchronous query of the world. *)
Definition ask {R} (q : W -> list Ev -> R) : Prog R := Query q (fun r => Ret r).

(** A settlement at hand, taken as a value or thrown. *)
Definition lift {A} (r : Result A) : Prog A :=
  match r with
  | Ok a => Ret a
  | Throw e => Raise e
  end.

(** [await c]: suspend until the call settles. *)
Definition await {R} (c : Call R) : Prog R := Await c lift.

(** What the platform does with a call: the log entries its issue leaves,
    and how the world settles it. *)
Class Platform := {
  issue : forall R, Call R -> list Ev;
  settle : forall R, Call R -> W -> list Ev -> Result R
}.

Context {platform : Platform}.

(** A handler run alone, every awaited call settling at once: from the
    calls issued before ([h]) and by now ([out]) and the state, to the
    settlement, the final state and the calls issued. *)
Fixpoint exec {A} (p : Prog A) (w : W) (h out : list Ev) (s : St)
  : Result A * St * list Ev :=
  match p with
  | Ret a => (Ok a, s, out)
  | Raise e => (Throw e, s, out)
  | Closure k => exec (k s) w h out s
  | Update f k => exec k w h out (f s)
  | Emit e k => exec k w h (out ++ [e]) s
  | Query q k => exec (k (q w (h ++ out))) w h out s
  | Await c k =>
      exec (k (settle c w (h ++ out ++ issue c))) w h (out ++ issue c) s
  end.

Definition run {A} (p : Prog A) (w : W) (h : list Ev) (s : St)
  : Result A * St * list Ev :=
  exec p w h [] s.

(** A handler suspended at an [await]. *)
Inductive Task : Type :=
| Suspended (R : Type) (c : Call R) (k : Result R -> Prog unit).

(** A handler run up to its next [await]: the state and the calls issued
    by then, and the suspended rest, if any.  An exception that reaches
    the top ends the handler. *)
Fixpoint advance (p : Prog unit) (w : W) (h out : list Ev) (s : St)
  : St * list Ev * option Task :=
  match p with
  | Ret _ => (s, out, None)
  | Raise _ => (s, out, None)
  | Closure k => advance (k s) w h out s
  | Update f k => advance k w h out (f s)
  | Emit e k => advance k w h (out ++ [e]) s
  | Query q k => advance (k (q w (h ++ out))) w h out s
  | Await c k => (s, out ++ issue c, Some (Suspended c k))
  end.

End Programs.

Arguments Ret {St W Ev Call A} a.
Arguments Raise {St W Ev Call A} e.
Arguments Closure {St W Ev Call A} k.
Arguments Update {St W Ev Call A} f k.
Arguments Emit {St W Ev Call A} e k.
Arguments Query {St W Ev Call A R} q k.
Arguments Await {St W Ev Call A R} c k.
Arguments closure {St W Ev Call}.
Arguments modify {St W Ev Call} f.
Arguments emit {St W Ev Call} e.
Arguments ask {St W Ev Call R} q.
Arguments lift {St W Ev Call A} r.
Arguments await {St W Ev Call R} c.
Arguments Suspended {St W Ev Call R} c k.

Declare Scope js_scope.
Delimit Scope js_scope with js.
Notation "x <- m ;; k" := (bind m (fun x => k))
  (at level 61, m at next level, right associativity) : js_scope.
Notation "m ;; k" := (bind m (fun _ => k))
  (at level 61, right associativity) : js_scope.
Local Open Scope js_scope.

(** The parts of a finished run. *)
Definition settlement {St Ev A} (x : Result A * St * list Ev) : Result A :=
  fst (fst x).
Definition final_state {St Ev A} (x : Result A * St * list Ev) : St :=
  snd (fst x).
Definition issued {St Ev A} (x : Result A * St * list Ev) : list Ev :=
  snd x.

(* ================================================================== *)
(** * PatientDashboard: calls, environment and state *)
(* ================================================================== *)

(** The entries of the log of calls. *)
Inductive Event :=
| EStartRecording (exercise_id : string)
| EStopRecording
| EUpdateAssignedExercise (patient assignment : string) (patch : AssignedPatch)
| ECreateExerciseProgress (patient : string) (fields : ProgressFields)
| EUpdateExerciseProgress (patient progress : string) (patch : ProgressPatch)
| EFetch (url : string) (body : json)
| EToast (title description : string) (destructive : bool)
| EConsoleError (text : string) (err : option JsError)
| ESetTimeout (delay : Z) (captured : option UserProfile).

(** Device commands. *)
Definition is_device_command (e : Event) : bool :=
  match e with
  | EStartRecording _ | EStopRecording => true
  | _ => false
  end.

(** Writes to the record store. *)
Definition is_store_write (e : Event) : bool :=
  match e with
  | EUpdateAssignedExercise _ _ _
  | ECreateExerciseProgress _ _
  | EUpdateExerciseProgress _ _ _ => true
  | _ => false
  end.

(** The promises the component awaits. *)
Inductive Call : Type -> Type :=
| StartRecording (exercise_id : string) : Call unit
| UpdateAssignedExercise (patient assignment : string)
    (patch : AssignedPatch) : Call unit
| CreateExerciseProgress (patient : string) (fields : ProgressFields)
    : Call string
| UpdateExerciseProgress (patient progress : string)
    (patch : ProgressPatch) : Call unit
| Fetch (url : string) (body : json) : Call Response
| ResponseText (response : Response) : Call string.

(** The environment of the component.  Each oracle sees the calls issued
    so far, the one it answers included. *)
Record World := mkWorld {
  dev_startRecording : list Event -> Result unit;
  store_updateAssignedExercise : list Event -> Result unit;
  store_createExerciseProgress : list Event -> Result string;
  store_updateExerciseProgress : list Event -> Result unit;
  net_fetch : list Event -> Result Response;
  Date_now : list Event -> Z;
  JSON_parse : string -> Result json
}.

#[export] Instance browser : Platform World Event Call := {
  issue R (c : Call R) :=
    match c with
    | StartRecording exercise_id => [EStartRecording exercise_id]
    | UpdateAssignedExercise patient a patch =>
        [EUpdateAssignedExercise patient a patch]
    | CreateExerciseProgress patient fields =>
        [ECreateExerciseProgress patient fields]
    | UpdateExerciseProgress patient p patch =>
        [EUpdateExerciseProgress patient p patch]
    | Fetch url body => [EFetch url body]
    | ResponseText _ => []
    end;
  settle R (c : Call R) w h :=
    match c in Call T return Result T with
    | StartRecording _ => dev_startRecording w h
    | UpdateAssignedExercise _ _ _ => store_updateAssignedExercise w h
    | CreateExerciseProgress _ _ => store_createExerciseProgress w h
    | UpdateExerciseProgress _ _ _ => store_updateExerciseProgress w h
    | Fetch _ _ => net_fetch w h
    | ResponseText response => r_text response
    end
}.

Record State := mkState {
  userProfile : option UserProfile;
  connected : bool;
  assignedExercises : list AssignedExercise;
  recommendations : list json;
  loadingExercises : bool;
  loadingRecommendations : bool;
  sessionLoading : bool;
  activeAssignmentId : option string;
  activeProgressId : option string
}.

Definition with_assignedExercises (v : list AssignedExercise) (s : State) :=
  mkState (userProfile s) (connected s) v (recommendations s)
          (loadingExercises s) (loadingRecommendations s) (sessionLoading s)
          (activeAssignmentId s) (activeProgressId s).

Definition with_recommendations (v : list json) (s : State) :=
  mkState (userProfile s) (connected s) (assignedExercises s) v
          (loadingExercises s) (loadingRecommendations s) (sessionLoading s)
          (activeAssignmentId s) (activeProgressId s).

Definition with_loadingExercises (v : bool) (s : State) :=
  mkState (userProfile s) (connected s) (assignedExercises s)
          (recommendations s) v (loadingRecommendations s) (sessionLoading s)
          (activeAssignmentId s) (activeProgressId s).

Definition with_loadingRecommendations (v : bool) (s : State) :=
  mkState (userProfile s) (connected s) (assignedExercises s)
          (recommendations s) (loadingExercises s) v (sessionLoading s)
          (activeAssignmentId s) (activeProgressId s).

Definition with_sessionLoading (v : bool) (s : State) :=
  mkState (userProfile s) (connected s) (assignedExercises s)
          (recommendations s) (loadingExercises s) (loadingRecommendations s)
          v (activeAssignmentId s) (activeProgressId s).

Definition with_activeAssignmentId (v : option string) (s : State) :=
  mkState (userProfile s) (connected s) (assignedExercises s)
          (recommendations s) (loadingExercises s) (loadingRecommendations s)
          (sessionLoading s) v (activeProgressId s).

Definition with_activeProgressId (v : option string) (s : State) :=
  mkState (userProfile s) (connected s) (assignedExercises s)
          (recommendations s) (loadingExercises s) (loadingRecommendations s)
          (sessionLoading s) (activeAssignmentId s) v.

Definition with_userProfile (v : option UserProfile) (s : State) :=
  mkState v (connected s) (assignedExercises s)
          (recommendations s) (loadingExercises s) (loadingRecommendations s)
          (sessionLoading s) (activeAssignmentId s) (activeProgressId s).

Definition with_connected (v : bool) (s : State) :=
  mkState (userProfile s) v (assignedExercises s)
          (recommendations s) (loadingExercises s) (loadingRecommendations s)
          (sessionLoading s) (activeAssignmentId s) (activeProgressId s).

(** The session slot. *)
Definition slot (s : State) : option string * option string :=
  (activeAssignmentId s, activeProgressId s).

(** [userProfile?.uid] *)
Definition profile_uid (s : State) : option string :=
  match userProfile s with
  | Some p => Some (uid p)
  | None => None
  end.

(** Programs of the component. *)
Definition Dash := Prog State World Event Call.

(** ** The imported operations *)

Definition startRecording (exercise_id : string) : Dash unit :=
  await (StartRecording exercise_id).

Definition stopRecording : Dash unit := emit EStopRecording.

Definition updateAssignedExercise (patient a : string) (p : AssignedPatch)
  : Dash unit :=
  await (UpdateAssignedExercise patient a p).

Definition createExerciseProgress (patient : string) (f : ProgressFields)
  : Dash string :=
  await (CreateExerciseProgress patient f).

Definition updateExerciseProgress (patient p : string) (patch : ProgressPatch)
  : Dash unit :=
  await (UpdateExerciseProgress patient p patch).

Definition fetch (url : string) (body : json) : Dash Response :=
  await (Fetch url body).

Definition toast (title description : string) (destructive : bool)
  : Dash unit :=
  emit (EToast title description destructive).

Definition console_error (text : string) (err : option JsError) : Dash unit :=
  emit (EConsoleError text err).

Definition dateNow : Dash Z := ask Date_now.

Definition setSessionLoading (b : bool) : Dash unit :=
  modify (with_sessionLoading b).
Definition setActiveAssignmentId (v : option string) : Dash unit :=
  modify (with_activeAssignmentId v).
Definition setActiveProgressId (v : option string) : Dash unit :=
  modify (with_activeProgressId v).
Definition setRecommendations (v : list json) : Dash unit :=
  modify (with_recommendations v).
Definition setLoadingRecommendations (b : bool) : Dash unit :=
  modify (with_loadingRecommendations b).
Definition setAssignedExercises (v : list AssignedExercise) : Dash unit :=
  modify (with_assignedExercises v).
Definition setLoadingExercises (b : bool) : Dash unit :=
  modify (with_loadingExercises b).

(* ================================================================== *)
(** * PatientDashboard: the session state machine *)
(* ================================================================== *)

(** [handleStartExercise] *)
Definition handleStartExercise (exercise : AssignedExercise) : Dash unit :=
  c <- closure ;;
  match profile_uid c with
  | None => Ret tt
  | Some patient =>
  if negb (truthy_string patient) then Ret tt else
  if negb (connected c) then
    toast "Device not connected"
          "Connect your hardware device before starting the session." true
  else
  if sessionLoading c || truthy (activeAssignmentId c) then
    toast "Session already in progress"
          "Finish the current exercise before starting another." false
  else
    setSessionLoading true ;;
    try_finally
      (try_catch
         (startRecording (exerciseId exercise) ;;
          updateAssignedExercise patient (id exercise)
            (mkAssignedPatch in_progress None) ;;
          t <- dateNow ;;
          progress <- createExerciseProgress patient
            (mkProgressFields patient (exerciseId exercise) (id exercise) t) ;;
          setActiveAssignmentId (Some (id exercise)) ;;
          setActiveProgressId (Some progress) ;;
          toast "Exercise started"
                (exerciseName exercise ++ " session has begun.") false)
         (fun error =>
            console_error "Error starting exercise:" (Some error) ;;
            stopRecording ;;
            try_catch
              (updateAssignedExercise patient (id exercise)
                 (mkAssignedPatch (status exercise) None))
              (fun revertError =>
                 console_error "Failed to revert exercise status:"
                               (Some revertError)) ;;
            toast "Could not start session"
                  (or_default (message error) "Please try again.") true))
      (setSessionLoading false)
  end.

(** [handleCompleteExercise] *)
Definition handleCompleteExercise : Dash unit :=
  c <- closure ;;
  match profile_uid c, activeAssignmentId c with
  | Some patient, Some active =>
  if negb (truthy_string patient) || negb (truthy_string active) then Ret tt
  else
    setSessionLoading true ;;
    try_finally
      (try_catch
         (stopRecording ;;
          completed_at <- dateNow ;;
          updateAssignedExercise patient active
            (mkAssignedPatch completed (Some completed_at)) ;;
          match activeProgressId c with
          | Some progress =>
              if truthy_string progress then
                updateExerciseProgress patient progress
                  (mkProgressPatch completed completed_at completed_at)
              else Ret tt
          | None => Ret tt
          end ;;
          toast "Exercise completed"
                "Great job! Exercise has been marked complete." false ;;
          emit (ESetTimeout 2000 (userProfile c)))
         (fun error =>
            console_error "Error completing exercise:" (Some error) ;;
            toast "Could not complete exercise"
                  (or_default (message error) "Please try again.") true))
      (setActiveAssignmentId None ;;
       setActiveProgressId None ;;
       setSessionLoading false)
  | _, _ => Ret tt
  end.

(** The effect on [[assignedExercises, activeAssignmentId, stopRecording]]:
    stop recording when the backend marks the active exercise completed. *)
Definition reconcileEffect : Dash unit :=
  c <- closure ;;
  match activeAssignmentId c with
  | None => Ret tt
  | Some active =>
  if negb (truthy_string active) then Ret tt else
  match find (fun ex => String.eqb (id ex) active) (assignedExercises c) with
  | Some activeExercise =>
      if Status_eqb (status activeExercise) completed then
        setActiveAssignmentId None ;;
        setActiveProgressId None ;;
        stopRecording
      else Ret tt
  | None => Ret tt
  end
  end.

(* ================================================================== *)
(** * PatientDashboard: recommendations *)
(* ================================================================== *)

Definition n8n_url := "https://hack12.app.n8n.cloud/webhook/patient-query".

(** [response.json()]: download the body, then parse it. *)
Definition response_json (response : Response) : Dash json :=
  text <- await (ResponseText response) ;;
  parsed <- ask (fun w _ => JSON_parse w text) ;;
  lift parsed.

(** [fetchNetworkRecommendation], as a closure over the [userProfile] of
    the render that created it. *)
Definition fetchNetworkRecommendation (userProfile : option UserProfile)
  : Dash unit :=
  match userProfile with
  | None => Ret tt
  | Some profile =>
    try_catch
      (response <- fetch n8n_url
         (JObj [("patientId", JStr (uid profile));
                ("condition", JStr "knee_rehabilitation")]) ;;
       if negb (r_ok response) then
         console_error "Failed to fetch n8n response" None ;;
         setLoadingRecommendations false
       else
         data <- response_json response ;;
         (if truthy_json (prop "recommendations" data)
             && isArray (prop "recommendations" data)
          then
            match prop "recommendations" data with
            | Some (JArr items) => setRecommendations items
            | _ => Ret tt
            end
          else if truthy_json (prop "recommendedExercise" data) then
            setRecommendations [data]
          else Ret tt) ;;
         setLoadingRecommendations false)
      (fun error =>
         console_error "Error fetching n8n webhook data:" (Some error) ;;
         setLoadingRecommendations false)
  end.

(** The listener on [patients/{uid}/assignedExercises]. *)
Definition onAssignedSnapshot (exercises : list AssignedExercise)
  : Dash unit :=
  setAssignedExercises exercises ;;
  setLoadingExercises false.

(** The listener on [patients/{uid}/n8nResponses]: the recommendation
    arrays of all documents, concatenated. *)
Definition onResponsesSnapshot (docs : list json) : Dash unit :=
  setRecommendations
    (flat_map
       (fun data =>
          if truthy_json (prop "recommendations" data)
             && isArray (prop "recommendations" data)
          then match prop "recommendations" data with
               | Some (JArr items) => items
               | _ => []
               end
          else [])
       docs) ;;
  setLoadingRecommendations false.

(* ================================================================== *)
(** * PatientDashboard: the event loop *)
(* ================================================================== *)

(** What can happen to the mounted component.  A fetch timer fires the
    fetcher it was set with: the interval the one of the current profile,
    the delay after a completion the one of the render in which the stop
    was requested. *)
Inductive Msg :=
| AuthChanged (profile : option UserProfile)
| DeviceChanged (is_connected : bool)
| AssignedSnapshot (exercises : list AssignedExercise)
| ResponsesSnapshot (docs : list json)
| FetchTimer (captured : option UserProfile)
| StartClicked (exercise : AssignedExercise)
| StopClicked.

(** The listeners are installed only while a profile is present. *)
Definition whenProfile (m : Dash unit) : Dash unit :=
  c <- closure ;;
  match userProfile c with
  | Some _ => m
  | None => Ret tt
  end.

Definition handle (m : Msg) : Dash unit :=
  match m with
  | AuthChanged profile => modify (with_userProfile profile)
  | DeviceChanged is_connected => modify (with_connected is_connected)
  | AssignedSnapshot exercises => whenProfile (onAssignedSnapshot exercises)
  | ResponsesSnapshot docs => whenProfile (onResponsesSnapshot docs)
  | FetchTimer captured => fetchNetworkRecommendation captured
  | StartClicked exercise => handleStartExercise exercise
  | StopClicked => handleCompleteExercise
  end.

(** The state at mount. *)
Definition mounted (profile : option UserProfile) (is_connected : bool)
  : State :=
  mkState profile is_connected [] [] true true false None None.

(** Document ids of the record store are never empty; a start is requested
    for a stored assignment. *)
Definition admissible (m : Msg) : Prop :=
  match m with
  | StartClicked exercise => id exercise <> ""
  | _ => True
  end.

Definition DashTask := Task State World Event Call.

(** The component between two turns: its cells, the log of the calls
    issued so far, and the handlers suspended at an [await], each with the
    message that started it. *)
Record Config := mkConfig {
  cells : State;
  log : list Event;
  pending : list (Msg * DashTask)
}.

(** One turn: the program runs up to its next [await]; the component
    renders and its effect runs; the program, if suspended, joins the
    [others]. *)
Definition turn (c : Config) (w : World) (origin : Msg) (p : Dash unit)
    (others : list (Msg * DashTask)) : Config :=
  let segment := advance p w (log c) [] (cells c) in
  let rendered :=
    advance reconcileEffect w (log c) (snd (fst segment)) (fst (fst segment))
  in
  mkConfig (fst (fst rendered))
           (log c ++ snd (fst rendered))
           (others ++ match snd segment with
                      | Some task => [(origin, task)]
                      | None => []
                      end).

(** A turn is taken by a message, whose handler starts, or by the
    settlement of an awaited call, whose handler resumes.  The world is
    free at every turn, so every call can settle either way, in any order
    with respect to the others. *)
Inductive Turn : Config -> Config -> Prop :=
| turn_message c w m :
    admissible m ->
    Turn c (turn c w m (handle m) (pending c))
| turn_settlement c w origin R (awaited : Call R) k before after :
    pending c = before ++ (origin, Suspended awaited k) :: after ->
    Turn c (turn c w origin (k (settle awaited w (log c))) (before ++ after)).

Inductive Reachable : Config -> Prop :=
| reach_mounted profile is_connected :
    Reachable (mkConfig (mounted profile is_connected) [] [])
| reach_turn c c' :
    Reachable c -> Turn c c' -> Reachable c'.

(* ================================================================== *)
(** * server/routes.ts *)
(* ================================================================== *)

Inductive ServerEvent :=
| SFetch (url : string) (body : json)
| SGetAllUsers
| SSend (code : Z) (body : json)
| SConsoleError (text : string) (err : JsError).

Inductive ServerCall : Type -> Type :=
| NodeFetch (url : string) (body : json) : ServerCall Response
| GetAllUsers : ServerCall (option json)
| NodeResponseText (response : Response) : ServerCall string.

Record ServerWorld := mkServerWorld {
  node_fetch : list ServerEvent -> Result Response;
  storage_getAllUsers : option (list ServerEvent -> Result (option json));
  node_JSON_parse : string -> Result json
}.

#[export] Instance node : Platform ServerWorld ServerEvent ServerCall := {
  issue R (c : ServerCall R) :=
    match c with
    | NodeFetch url body => [SFetch url body]
    | GetAllUsers => [SGetAllUsers]
    | NodeResponseText _ => []
    end;
  settle R (c : ServerCall R) w h :=
    match c in ServerCall T return Result T with
    | NodeFetch _ _ => node_fetch w h
    | GetAllUsers =>
        match storage_getAllUsers w with
        | Some method => method h
        | None => Ok None
        end
    | NodeResponseText response => r_text response
    end
}.

(** The handlers keep no state. *)
Definition Srv := Prog unit ServerWorld ServerEvent ServerCall.

Definition JInt (z : Z) : json := JNum (inject_Z z).

(** [res.status(code).json(body)] *)
Definition send (code : Z) (body : json) : Srv unit :=
  emit (SSend code body).

(** [safeParseJSON] *)
Definition safeParseJSON (response : Response) : Srv json :=
  text <- await (NodeResponseText response) ;;
  try_catch
    (parsed <- ask (fun w _ => node_JSON_parse w text) ;;
     lift parsed)
    (fun _ => Ret (JObj [("raw", JStr text)])).

(** [error instanceof Error ? error.message : String(error)], as the
    property list it contributes: an undefined value is dropped by
    [res.json]. *)
Definition details (error : JsError) : list (string * json) :=
  match (if instanceof_Error error then message error
         else Some (toString error)) with
  | Some text => [("details", JStr text)]
  | None => []
  end.

(** GET /api/health *)
Definition health (_ : json) : Srv unit :=
  send 200 (JObj [("status", JStr "ok");
                  ("message", JStr "Server is running 🚀")]).

(** [storage.getAllUsers?.()] *)
Definition getAllUsers : Srv (option json) :=
  defined <- ask (fun w _ => match storage_getAllUsers w with
                             | Some _ => true
                             | None => false
                             end) ;;
  if defined then await GetAllUsers else Ret None.

(** GET /api/users *)
Definition users (_ : json) : Srv unit :=
  try_catch
    (found <- getAllUsers ;;
     send 200 (match found with
               | Some v => if truthy_json found then v else JArr []
               | None => JArr []
               end))
    (fun error =>
       emit (SConsoleError "❌ Error fetching users:" error) ;;
       send 500 (JObj [("error", JStr "Failed to fetch users")])).

(** POST /api/n8n/patient-query, first registration. *)
Definition patient_query (req_body : json) : Srv unit :=
  try_catch
    (response <- await (NodeFetch n8n_url req_body) ;;
     data <- safeParseJSON response ;;
     send (r_status response)
          (JObj [("status", JInt (r_status response));
                 ("ok", JBool (r_ok response));
                 ("data", data)]))
    (fun error =>
       emit (SConsoleError "❌ Error forwarding to n8n:" error) ;;
       send 500 (JObj (("error", JStr "Failed to reach n8n webhook")
                       :: details error))).

(** POST /api/n8n/patient-query, second registration. *)
Definition patient_query_test (req_body : json) : Srv unit :=
  try_catch
    (response <- await (NodeFetch n8n_url req_body) ;;
     data <- safeParseJSON response ;;
     send (r_status response)
          (JObj [("status", JInt (r_status response));
                 ("ok", JBool (r_ok response));
                 ("data", data)]))
    (fun error =>
       emit (SConsoleError "❌ Error contacting n8n test webhook:" error) ;;
       send 500 (JObj (("error", JStr "Failed to reach n8n test webhook")
                       :: details error))).

Inductive Method := GET | POST.

Definition Method_eqb (a b : Method) : bool :=
  match a, b with
  | GET, GET | POST, POST => true
  | _, _ => false
  end.

(** [registerRoutes]: the routing table, in registration order. *)
Definition registerRoutes : list (Method * string * (json -> Srv unit)) :=
  [ (GET, "/api/health", health);
    (GET, "/api/users", users);
    (POST, "/api/n8n/patient-query", patient_query);
    (POST, "/api/n8n/patient-query", patient_query_test) ].

(** The handler that answers a request matching [pattern]: the first one
    registered for it, since no handler passes the request on. *)
Definition route (method : Method) (pattern : string)
  : option (json -> Srv unit) :=
  match find (fun r => Method_eqb (fst (fst r)) method
                       && String.eqb (snd (fst r)) pattern)
             registerRoutes with
  | Some r => Some (snd r)
  | None => None
  end.

(** The webhook forwarder as mounted. *)
Definition forwarder (req_body : json) : Srv unit :=
  match route POST "/api/n8n/patient-query" with
  | Some handler => handler req_body
  | None => Ret tt
  end.

(* ================================================================== *)
(** * Vocabulary of the properties *)
(* ================================================================== *)

(** Neither a device command nor a store write. *)
Definition quiet (e : Event) : Prop :=
  is_device_command e = false /\ is_store_write e = false.

(** The patient is signed in: [userProfile?.uid] is a non-empty string. *)
Definition signed_in (s : State) (patient : string) : Prop :=
  profile_uid s = Some patient /\ patient <> "".

(** The slot holds the assignment [a]. *)
Definition holds (s : State) (a : string) : Prop :=
  activeAssignmentId s = Some a /\ a <> "".

(** The session slot holds nothing, or one assignment with its record. *)
Definition slot_consistent (s : State) : Prop :=
  slot s = (None, None) \/
  exists a p, slot s = (Some a, Some p) /\ a <> "".

(** The guards of [handleStartExercise] let the request through. *)
Definition start_admitted (s : State) (patient : string) : Prop :=
  signed_in s patient /\ connected s = true /\ sessionLoading s = false /\
  truthy (activeAssignmentId s) = false.

(** The calls of a start sequence, for the exercise and the history at
    hand. *)
Section StartCalls.
Variables (w : World) (h : list Event) (patient : string)
          (exercise : AssignedExercise).

Definition start_call : Event := EStartRecording (exerciseId exercise).

Definition in_progress_write : Event :=
  EUpdateAssignedExercise patient (id exercise)
    (mkAssignedPatch in_progress None).

Definition create_call : Event :=
  ECreateExerciseProgress patient
    (mkProgressFields patient (exerciseId exercise) (id exercise)
       (Date_now w (h ++ [start_call; in_progress_write]))).

Definition revert_write : Event :=
  EUpdateAssignedExercise patient (id exercise)
    (mkAssignedPatch (status exercise) None).

Definition start_outcome : Result unit :=
  dev_startRecording w (h ++ [start_call]).

Definition in_progress_outcome : Result unit :=
  store_updateAssignedExercise w (h ++ [start_call; in_progress_write]).

Definition create_outcome : Result string :=
  store_createExerciseProgress w
    (h ++ [start_call; in_progress_write; create_call]).
End StartCalls.

(** The calls of a stop sequence. *)
Section StopCalls.
Variables (w : World) (h : list Event) (patient active : string).

Definition stop_time : Z := Date_now w (h ++ [EStopRecording]).

Definition completed_write : Event :=
  EUpdateAssignedExercise patient active
    (mkAssignedPatch completed (Some stop_time)).

Definition progress_write (progress : string) : Event :=
  EUpdateExerciseProgress patient progress
    (mkProgressPatch completed stop_time stop_time).

Definition completed_outcome : Result unit :=
  store_updateAssignedExercise w (h ++ [EStopRecording; completed_write]).

Definition progress_outcome (progress : string) : Result unit :=
  store_updateExerciseProgress w
    (h ++ [EStopRecording; completed_write; progress_write progress]).
End StopCalls.

(** What a start sequence issues once one of its steps has failed with
    [error], the calls [done] having been issued by then: the log entry,
    the stop command, the write putting the assignment's status back, the
    log entry of a failed revert, and the notice. *)
Definition start_failure (w : World) (h : list Event) (patient : string)
    (exercise : AssignedExercise) (done : list Event) (error : JsError)
  : list Event :=
  let cleanup := [EConsoleError "Error starting exercise:" (Some error);
                  EStopRecording;
                  revert_write patient exercise] in
  cleanup
  ++ match store_updateAssignedExercise w (h ++ done ++ cleanup) with
     | Ok _ => []
     | Throw revertError =>
         [EConsoleError "Failed to revert exercise status:"
                        (Some revertError)]
     end
  ++ [EToast "Could not start session"
             (or_default (message error) "Please try again.") true].

(** The slot after a start that went through. *)
Definition started (exercise : AssignedExercise) (progress : string)
    (s : State) : State :=
  with_activeProgressId (Some progress)
    (with_activeAssignmentId (Some (id exercise)) s).

Definition started_notice (exercise : AssignedExercise) : Event :=
  EToast "Exercise started"
         (exerciseName exercise ++ " session has begun.") false.

(** The state after a stop sequence: slot empty, busy flag down. *)
Definition idle (s : State) : State :=
  with_sessionLoading false
    (with_activeProgressId None (with_activeAssignmentId None s)).

(** The notice and the delayed call of the fetcher, which closes over
    the profile at hand. *)
Definition stop_success (s : State) : list Event :=
  [EToast "Exercise completed"
          "Great job! Exercise has been marked complete." false;
   ESetTimeout 2000 (userProfile s)].

Definition stop_failure (error : JsError) : list Event :=
  [EConsoleError "Error completing exercise:" (Some error);
   EToast "Could not complete exercise"
          (or_default (message error) "Please try again.") true].

(** The progress record the stop sequence writes to, if any:
    [activeProgressId] when it is a non-empty string. *)
Definition progress_record (s : State) : option string :=
  match activeProgressId s with
  | Some progress => if truthy_string progress then Some progress else None
  | None => None
  end.

(** The store reports the assignment held in the slot as completed: the
    record found for [activeAssignmentId] has status [completed]. *)
Definition reported_completed (s : State) (active : string) : Prop :=
  holds s active /\
  exists activeExercise,
    find (fun ex => String.eqb (id ex) active) (assignedExercises s)
      = Some activeExercise /\
    status activeExercise = completed.

(** The slot emptied, everything else as it was. *)
Definition slot_cleared (s : State) : State :=
  with_activeProgressId None (with_activeAssignmentId None s).

(** The request of the recommendation fetcher. *)
Definition advisory_request (profile : UserProfile) : Event :=
  EFetch n8n_url
    (JObj [("patientId", JStr (uid profile));
           ("condition", JStr "knee_rehabilitation")]).

(** A single recommendation-shaped object, as the fetcher recognises one:
    its [recommendedExercise] is truthy. *)
Definition recommendation_shaped (data : json) : bool :=
  truthy_json (prop "recommendedExercise" data).

(** The recommendation list after a parsed answer [data], following the
    wording of the design: the array under [recommendations] if there is
    one, else the object itself as a one-element list if it is
    recommendation-shaped, else the prior list. *)
Definition normalized (data : json) (prior : list json) : list json :=
  match prop "recommendations" data with
  | Some (JArr items) => items
  | _ => if recommendation_shaped data then [data] else prior
  end.

(** The parsed body of a response, when it has one. *)
Definition parsed_body (parse : string -> Result json) (response : Response)
  : Result json :=
  match r_text response with
  | Ok text => parse text
  | Throw e => Throw e
  end.

(** What the fetcher issues and how it leaves the state after a failed
    run. *)
Definition fetch_failed (profile : UserProfile) (error : JsError)
    (s : State) : Result unit * State * list Event :=
  (Ok tt, with_loadingRecommendations false s,
   [advisory_request profile;
    EConsoleError "Error fetching n8n webhook data:" (Some error)]).

(** The notice of a rejected start request. *)
Definition rejection_notice (s : State) : list Event :=
  match profile_uid s with
  | Some patient =>
      if truthy_string patient then
        [if connected s
         then EToast "Session already in progress"
                "Finish the current exercise before starting another." false
         else EToast "Device not connected"
                "Connect your hardware device before starting the session."
                true]
      else []
  | None => []
  end.

Definition is_progress_write (e : Event) : bool :=
  match e with
  | EUpdateExerciseProgress _ _ _ => true
  | _ => false
  end.

(** The tolerant parse of the forwarder: the parsed body, or the text
    under [raw]. *)
Definition tolerant_parse (parse : string -> Result json) (text : string)
  : json :=
  match parse text with
  | Ok data => data
  | Throw _ => JObj [("raw", JStr text)]
  end.

(** The answer of the forwarder to an upstream response with a body. *)
Definition relayed (response : Response) (data : json) : ServerEvent :=
  SSend (r_status response)
        (JObj [("status", JInt (r_status response));
               ("ok", JBool (r_ok response));
               ("data", data)]).

(** The answer of the forwarder when the upstream could not be reached or
    its body could not be read. *)
Definition transport_failure (error : JsError) : list ServerEvent :=
  [SConsoleError "❌ Error forwarding to n8n:" error;
   SSend 500 (JObj (("error", JStr "Failed to reach n8n webhook")
                    :: details error))].

(** A start request turned away before any side effect: the handler
    returns normally, the state is the state before, no device command and
    no store write is issued, and a signed-in patient gets the notice that
    names the violated precondition and nothing else. *)
Definition rejected (w : World) (h : list Event) (s : State)
    (exercise : AssignedExercise) : Prop :=
  let alone := run (handleStartExercise exercise) w h s in
  settlement alone = Ok tt /\
  final_state alone = s /\
  Forall quiet (issued alone) /\
  (forall patient, signed_in s patient ->
     issued alone =
       [if connected s
        then EToast "Session already in progress"
               "Finish the current exercise before starting another." false
        else EToast "Device not connected"
               "Connect your hardware device before starting the session."
               true]).

(** ** The event loop *)

(** A start or a stop request: the requests that raise the busy flag. *)
Definition is_session_request (m : Msg) : bool :=
  match m with
  | StartClicked _ | StopClicked => true
  | _ => false
  end.

(** A start or stop sequence is suspended at an [await]. *)
Definition in_flight (c : Config) : bool :=
  existsb (fun task => is_session_request (fst task)) (pending c).

(** The discipline of a handler across its [await]s.  [Resume] is what the
    handler may rely on when it is resumed, other handlers having run in
    between; [AtAwait] is what it owes when it suspends, [AtEnd] when it
    ends and [AtOnce] when it ends without ever suspending, each relating
    the state at the start of the turn to the state reached. *)
Section Discipline.
Variable Resume : State -> Prop.
Variables AtAwait AtOnce AtEnd : State -> State -> Prop.

Fixpoint obeys (fresh : bool) (p : Dash unit) (s0 s : State) : Prop :=
  match p with
  | Ret _ => if fresh then AtOnce s0 s else AtEnd s0 s
  | Raise _ => if fresh then AtOnce s0 s else AtEnd s0 s
  | Closure k => obeys fresh (k s) s0 s
  | Update f k => obeys fresh k s0 (f s)
  | Emit _ k => obeys fresh k s0 s
  | Query q k => forall r, obeys fresh (k r) s0 s
  | Await c k =>
      AtAwait s0 s /\
      forall r s', Resume s' -> obeys false (k r) s' s'
  end.
End Discipline.

Definition flag_kept (s0 s : State) : Prop :=
  slot_consistent s /\ sessionLoading s = sessionLoading s0.

Definition flag_down (s0 s : State) : Prop :=
  slot_consistent s /\ sessionLoading s = false.

Definition slot_emptied (s0 s : State) : Prop :=
  slot s = (None, None) /\ sessionLoading s = false.

Definition slot_kept (s0 s : State) : Prop := slot_consistent s.

(** What a handler owes when it suspends: a start or stop sequence a
    consistent slot, every other handler moreover an untouched busy
    flag. *)
Definition at_await (origin : Msg) : State -> State -> Prop :=
  if is_session_request origin then slot_kept else flag_kept.

(** What a handler owes when it ends after an [await]: a start sequence the
    busy flag down, a stop sequence moreover the slot empty, every other
    handler an untouched busy flag. *)
Definition at_end (origin : Msg) : State -> State -> Prop :=
  match origin with
  | StartClicked _ => flag_down
  | StopClicked => slot_emptied
  | _ => flag_kept
  end.

(** The discipline of the handler of a message.  Resumed, it may rely on a
    consistent slot; ending at once (a request turned away, a listener), it
    owes an untouched busy flag. *)
Definition discipline (origin : Msg)
  : bool -> Dash unit -> State -> State -> Prop :=
  obeys slot_consistent (at_await origin) flag_kept (at_end origin).

(** A suspended handler will keep to its discipline however its call
    settles. *)
Definition task_disciplined (task : Msg * DashTask) : Prop :=
  match snd task with
  | Suspended _ k =>
      forall r s, slot_consistent s -> discipline (fst task) false (k r) s s
  end.

(** What holds of the component between any two turns. *)
Definition coherent (c : Config) : Prop :=
  slot_consistent (cells c) /\
  Forall task_disciplined (pending c) /\
  (sessionLoading (cells c) = true -> in_flight c = true).

(** Schedules: a message is delivered; the oldest awaited call settles. *)
Definition deliver (m : Msg) (w : World) (c : Config) : Config :=
  turn c w m (handle m) (pending c).

Definition settle_oldest (w : World) (c : Config) : Config :=
  match pending c with
  | (origin, Suspended awaited k) :: others =>
      turn c w origin (k (settle awaited w (log c))) others
  | [] => c
  end.

(** ** The steps of a start sequence *)

(** Where a start sequence stands: the call it is to await next, or what
    is left for it to do once its calls have settled. *)
Inductive StartStage :=
| at_device
| at_status
| at_creation
| filling (progress : string)
| reverting
| reverted.

(** The call a sequence awaits at a stage, as the log shows it: the record
    command, the write of the [in_progress] status, the creation of the
    progress record, the write putting the status back.  A sequence that
    is to fill the slot, or that has put the status back, awaits
    nothing. *)
Definition expects (exercise : AssignedExercise) (stage : StartStage)
    (call : list Event) : Prop :=
  match stage with
  | at_device => call = [start_call exercise]
  | at_status => exists patient, call = [in_progress_write patient exercise]
  | at_creation =>
      exists patient t,
        call = [ECreateExerciseProgress patient
                  (mkProgressFields patient (exerciseId exercise)
                     (id exercise) t)]
  | reverting => exists patient, call = [revert_write patient exercise]
  | filling _ | reverted => False
  end.

(** The stage after the awaited call has settled: a success leads from
    the device to the status, from the status to the creation, and from
    the creation, with the id it returned, to the filling of the slot; a
    failure leads to the write back, after which nothing is awaited. *)
Definition next_stage (stage : StartStage) {R : Type} (c : Call R)
  : Result R -> StartStage :=
  match c in Call T return Result T -> StartStage with
  | CreateExerciseProgress _ _ => fun r =>
      match stage, r with
      | at_creation, Ok progress => filling progress
      | at_creation, Throw _ => reverting
      | _, _ => reverted
      end
  | _ => fun r =>
      match stage, r with
      | at_device, Ok _ => at_status
      | at_status, Ok _ => at_creation
      | at_device, Throw _ | at_status, Throw _ => reverting
      | _, _ => reverted
      end
  end.

(** A program keeps to the steps of a start sequence from [stage] on: it
    leaves the slot as it is up to every [await], awaits the call of its
    stage, goes on from the next stage however the call settles and
    whatever the state it is resumed in, and when it ends it has left the
    slot as it found it, unless it was to fill it: then the slot holds the
    assignment of the request and the progress record created. *)
Fixpoint staged (exercise : AssignedExercise) (stage : StartStage)
    (p : Dash unit) (s0 s : State) : Prop :=
  match p with
  | Ret _ | Raise _ =>
      match stage with
      | filling progress => slot s = (Some (id exercise), Some progress)
      | _ => slot s = slot s0
      end
  | Closure k => staged exercise stage (k s) s0 s
  | Update f k => staged exercise stage k s0 (f s)
  | Emit _ k => staged exercise stage k s0 s
  | Query q k => forall r, staged exercise stage (k r) s0 s
  | Await c k =>
      slot s = slot s0 /\
      expects exercise stage (issue c) /\
      forall r s', staged exercise (next_stage stage c r) (k r) s' s'
  end.

(** A suspended start sequence stands at [stage]. *)
Definition at_stage (exercise : AssignedExercise) (stage : StartStage)
    (task : DashTask) : Prop :=
  match task with
  | Suspended c k =>
      expects exercise stage (issue c) /\
      forall r s, staged exercise (next_stage stage c r) (k r) s s
  end.

(** Every suspended start sequence stands at a stage. *)
Definition start_tasks_staged (tasks : list (Msg * DashTask)) : Prop :=
  Forall (fun task =>
            match fst task with
            | StartClicked exercise =>
                exists stage, at_stage exercise stage (snd task)
            | _ => True
            end) tasks.

(** ** The JSON grammar, as far as the properties need it *)

(** JSON white space: space, tab, line feed, carriage return. *)
Definition json_ws (c : Ascii.ascii) : bool :=
  match Ascii.nat_of_ascii c with
  | 32%nat | 9%nat | 10%nat | 13%nat => true
  | _ => false
  end.

(** The characters a JSON value can begin with: brace, bracket, quote,
    minus, a digit, or the first letter of [true], [false], [null]. *)
Definition json_value_start (c : Ascii.ascii) : bool :=
  let n := Ascii.nat_of_ascii c in
  (n =? 123)%nat || (n =? 91)%nat || (n =? 34)%nat || (n =? 45)%nat
  || ((48 <=? n)%nat && (n <=? 57)%nat)
  || (n =? 116)%nat || (n =? 102)%nat || (n =? 110)%nat.

(** The first character after leading white space can begin a value. *)
Fixpoint json_text_start (text : string) : bool :=
  match text with
  | EmptyString => false
  | String c rest =>
      if json_ws c then json_text_start rest else json_value_start c
  end.

(** [JSON.parse] follows the JSON grammar at least in this: a text it
    accepts begins, after white space, like a JSON value. *)
Definition grammatical (parse : string -> Result json) : Prop :=
  forall text data, parse text = Ok data -> json_text_start text = true.

(* ================================================================== *)
(** * Scenarios *)
(* ================================================================== *)

Definition an_Error (text : string) : JsError :=
  mkError true (Some text) ("Error: " ++ text).

Definition patient_1 : UserProfile := mkProfile "patient-1".

Definition knee_extension : AssignedExercise :=
  mkAssigned "E1" "knee-extension" "Knee Extension" 0 90 10 60
             assigned 1000 None.

(** A [JSON.parse] that knows the texts of a table and rejects all
    others. *)
Definition table_parse (table : list (string * json)) (text : string)
  : Result json :=
  match assoc text table with
  | Some data => Ok data
  | None => Throw (mkError true (Some "Unexpected token")
                           "SyntaxError: Unexpected token")
  end.

Definition dq : string := String (Ascii.ascii_of_nat 34) "".

Definition batch_text : string :=
  "{" ++ dq ++ "recommendations" ++ dq ++ ":[]}".

Definition single_text : string :=
  "{" ++ dq ++ "recommendedExercise" ++ dq ++ ":"
      ++ dq ++ "Heel Slides" ++ dq ++ "}".

Definition known_texts : list (string * json) :=
  [ ("[]", JArr []);
    ("null", JNull);
    (batch_text, JObj [("recommendations", JArr [])]);
    (single_text, JObj [("recommendedExercise", JStr "Heel Slides")]) ].

(** Every call succeeds; the advisory endpoint answers with a batch. *)
Definition cooperative : World :=
  mkWorld (fun _ => Ok tt) (fun _ => Ok tt) (fun _ => Ok "P1")
          (fun _ => Ok tt)
          (fun _ => Ok (mkResponse 200 true (Ok batch_text)))
          (fun h => 1000 + Z.of_nat (length h))
          (table_parse known_texts).

(** The device refuses to record. *)
Definition device_fails : World :=
  mkWorld (fun _ => Throw (an_Error "Device unreachable"))
          (fun _ => Ok tt) (fun _ => Ok "P1") (fun _ => Ok tt)
          (fun _ => Ok (mkResponse 200 true (Ok batch_text)))
          (fun h => 1000 + Z.of_nat (length h))
          (table_parse known_texts).

(** The store rejects every write to an assignment. *)
Definition assignment_writes_fail : World :=
  mkWorld (fun _ => Ok tt)
          (fun _ => Throw (an_Error "permission-denied"))
          (fun _ => Ok "P1") (fun _ => Ok tt)
          (fun _ => Ok (mkResponse 200 true (Ok batch_text)))
          (fun h => 1000 + Z.of_nat (length h))
          (table_parse known_texts).

(** The advisory endpoint answers with a single bare recommendation. *)
Definition advises_single : World :=
  mkWorld (fun _ => Ok tt) (fun _ => Ok tt) (fun _ => Ok "P1")
          (fun _ => Ok tt)
          (fun _ => Ok (mkResponse 200 true (Ok single_text)))
          (fun h => 1000 + Z.of_nat (length h))
          (table_parse known_texts).

(** The advisory endpoint is down (scenario E, seen from the fetcher). *)
Definition advisory_down : World :=
  mkWorld (fun _ => Ok tt) (fun _ => Ok tt) (fun _ => Ok "P1")
          (fun _ => Ok tt)
          (fun _ => Ok (mkResponse 500 false (Ok "Internal Server Error")))
          (fun h => 1000 + Z.of_nat (length h))
          (table_parse known_texts).

(** Signed in, device connected, nothing running. *)
Definition ready : State := mounted (Some patient_1) true.

(** Scenario A: the session of [knee_extension] is running. *)
Definition in_session : State :=
  final_state (run (handleStartExercise knee_extension) cooperative [] ready).

(** Scenario A, turn by turn: the request, then the three settlements. *)
Definition session_running : Config :=
  settle_oldest cooperative
    (settle_oldest cooperative
       (settle_oldest cooperative
          (deliver (StartClicked knee_extension) cooperative
             (mkConfig ready [] [])))).

(** Scenario D: the store reports [knee_extension] completed. *)
Definition knee_extension_done : AssignedExercise :=
  mkAssigned "E1" "knee-extension" "Knee Extension" 0 90 10 60
             completed 1000 (Some 2000).

(** Scenario E: the upstream answers 500 with a plain text. *)
Definition upstream_down : ServerWorld :=
  mkServerWorld
    (fun _ => Ok (mkResponse 500 false (Ok "Internal Server Error")))
    None
    (table_parse known_texts).

(** A start request has been made and is suspended at its first
    [await]. *)
Definition start_suspended : Config :=
  deliver (StartClicked knee_extension) cooperative (mkConfig ready [] []).

(** Scenario B, turn by turn: the stop request, then the two
    settlements. *)
Definition stop_suspended : Config :=
  deliver StopClicked cooperative session_running.

Definition session_stopped : Config :=
  settle_oldest cooperative (settle_oldest cooperative stop_suspended).

(** Scenario A, two settlements on: the device records, the status is
    written, the creation of the progress record is awaited. *)
Definition creation_awaited : Config :=
  settle_oldest cooperative (settle_oldest cooperative start_suspended).

(* ================================================================== *)
(** * ExerciseCard and the panel that shows the cards *)
(* ================================================================== *)

(** The props of [ExerciseCard]; a callback is the message its call
    delivers to the dashboard. *)
Record CardProps := mkCardProps {
  cp_exercise : AssignedExercise;
  cp_onStart : option Msg;
  cp_onStop : option Msg;
  cp_progress : Z;
  cp_isActive : bool;
  cp_isRecording : bool;
  cp_disabled : bool;
  cp_loading : bool
}.

Record Button := mkButton {
  b_label : string;
  b_disabled : bool;
  b_onClick : option Msg
}.

(** What a card shows: the figures, and the elements that are rendered
    only under a condition. *)
Record CardView := mkCardView {
  v_name : string;
  v_badge : Status;
  v_assignedAt : Z;
  v_angleMin : Z;
  v_angleMax : Z;
  v_reps : Z;
  v_minutes : Z;
  v_seconds : Z;
  v_progress : Z;
  v_start : option Button;
  v_stop : option Button;
  v_completedAt : option Z
}.

(** [x && <element>] on a number read through an optional field. *)
Definition truthy_number (o : option Z) : bool :=
  match o with
  | Some z => negb (z =? 0)
  | None => false
  end.

(** [ExerciseCard].  The duration is a whole number of seconds:
    [Math.floor(d / 60)] is the floored quotient and [d % 60] the
    remainder with the sign of [d]. *)
Definition ExerciseCard (p : CardProps) : CardView :=
  let exercise := cp_exercise p in
  let canStart :=
    (Status_eqb (status exercise) assigned
     || Status_eqb (status exercise) in_progress)
    && negb (cp_isRecording p) in
  let isCompleted := Status_eqb (status exercise) completed in
  mkCardView
    (exerciseName exercise)
    (status exercise)
    (assignedAt exercise)
    (targetAngleMin exercise)
    (targetAngleMax exercise)
    (targetReps exercise)
    (targetDuration exercise / 60)
    (Z.rem (targetDuration exercise) 60)
    (cp_progress p)
    (if negb isCompleted
        && (negb (cp_isActive p) || negb (cp_isRecording p))
     then Some (mkButton
                  (if cp_loading p then "Starting..." else "Start Exercise")
                  (negb canStart || cp_disabled p || cp_loading p)
                  (cp_onStart p))
     else None)
    (if negb isCompleted && cp_isActive p && cp_isRecording p
     then Some (mkButton
                  (if cp_loading p then "Finishing..." else "Stop & Complete")
                  (cp_loading p)
                  (cp_onStop p))
     else None)
    (if isCompleted && truthy_number (completedAt exercise)
     then completedAt exercise
     else None).

(** [activeAssignmentId === exercise.id] *)
Definition is_active (s : State) (exercise : AssignedExercise) : bool :=
  match activeAssignmentId s with
  | Some active => String.eqb active (id exercise)
  | None => false
  end.

(** The props [PatientDashboard] hands to the card of an exercise;
    [isRecording] is the observable of the device hook. *)
Definition cardProps (s : State) (isRecording : bool)
    (exercise : AssignedExercise) : CardProps :=
  mkCardProps exercise
    (Some (StartClicked exercise))
    (Some StopClicked)
    (if Status_eqb (status exercise) completed then 100
     else if Status_eqb (status exercise) in_progress then 50
     else 0)
    (is_active s exercise)
    isRecording
    (sessionLoading s && negb (is_active s exercise))
    (sessionLoading s && is_active s exercise && isRecording).

(** The "Assigned Exercises" panel of [PatientDashboard]. *)
Inductive Panel :=
| Spinner
| NoExercises
| Cards (cards : list CardView).

Definition assignedExercisesPanel (s : State) (isRecording : bool) : Panel :=
  if loadingExercises s then Spinner
  else if (length (assignedExercises s) =? 0)%nat then NoExercises
  else Cards (map (fun exercise =>
                     ExerciseCard (cardProps s isRecording exercise))
                  (assignedExercises s)).

(** The card of one exercise, as the dashboard renders it. *)
Definition card (s : State) (isRecording : bool)
    (exercise : AssignedExercise) : CardView :=
  ExerciseCard (cardProps s isRecording exercise).

(* ================================================================== *)
(** * Further vocabulary *)
(* ================================================================== *)

(** The store write [e], if it is one, goes to the records of [patient]. *)
Definition for_patient (patient : string) (e : Event) : Prop :=
  match e with
  | EUpdateAssignedExercise p _ _ => p = patient
  | ECreateExerciseProgress p fields => p = patient /\ pf_patientId fields = patient
  | EUpdateExerciseProgress p _ _ => p = patient
  | _ => True
  end.

(** The store write [e], if it concerns an assignment, concerns [a]. *)
Definition for_assignment (a : string) (e : Event) : Prop :=
  match e with
  | EUpdateAssignedExercise _ a' _ => a' = a
  | ECreateExerciseProgress _ fields => pf_assignedExerciseId fields = a
  | _ => True
  end.

(** The store write [e], if it updates a progress record, updates the one
    in the slot. *)
Definition for_progress (slot_progress : option string) (e : Event) : Prop :=
  match e with
  | EUpdateExerciseProgress _ p _ => slot_progress = Some p
  | _ => True
  end.

(** A notice with a title and a description. *)
Definition worded (e : Event) : Prop :=
  match e with
  | EToast title description _ => title <> "" /\ description <> ""
  | _ => True
  end.

Definition is_fetch (e : Event) : bool :=
  match e with
  | EFetch _ _ => true
  | _ => false
  end.

Definition is_send (e : ServerEvent) : bool :=
  match e with
  | SSend _ _ => true
  | _ => false
  end.

(** The cells the session machine owns and the lists the listeners own:
    everything but the recommendations and their loading flag. *)
Definition outside_recommendations (s s' : State) : Prop :=
  userProfile s' = userProfile s /\
  connected s' = connected s /\
  assignedExercises s' = assignedExercises s /\
  loadingExercises s' = loadingExercises s /\
  sessionLoading s' = sessionLoading s /\
  activeAssignmentId s' = activeAssignmentId s /\
  activeProgressId s' = activeProgressId s.

(** The recommendation array of a document of [n8nResponses], if it has
    one. *)
Definition batch_of (doc : json) : option (list json) :=
  match prop "recommendations" doc with
  | Some (JArr items) => Some items
  | _ => None
  end.

(** The storage answers [getAllUsers] with [found]. *)
Definition users_known (found : option json) : ServerWorld :=
  mkServerWorld
    (fun _ => Ok (mkResponse 200 true (Ok "[]")))
    (Some (fun _ => Ok found))
    (table_parse known_texts).

(** The storage fails on [getAllUsers]. *)
Definition users_fail : ServerWorld :=
  mkServerWorld
    (fun _ => Ok (mkResponse 200 true (Ok "[]")))
    (Some (fun _ => Throw (an_Error "disk")))
    (table_parse known_texts).

(** One response is sent, and it is the last thing the handler does. *)
Definition answers_once (events : list ServerEvent) : Prop :=
  exists before code body,
    events = before ++ [SSend code body] /\
    existsb is_send before = false.

(** The upstream cannot be reached. *)
Definition upstream_unreachable : ServerWorld :=
  mkServerWorld
    (fun _ => Throw (an_Error "ECONNREFUSED"))
    None
    (table_parse known_texts).

Definition shows_stop (view : CardView) : bool :=
  match v_stop view with
  | Some _ => true
  | None => false
  end.

(** The device records the session of [knee_extension] (scenario A, as
    the hook reports it). *)
Definition recording : bool := true.

(** Scenario A, as the store reports it once the session runs. *)
Definition knee_extension_running : AssignedExercise :=
  mkAssigned "E1" "knee-extension" "Knee Extension" 0 90 10 60
             in_progress 1000 None.

(** The cells the handler of a message may change, from the state [s0] at
    the start of a turn to the state [s] at its end: each handler its own
    cells, and the slot, which only a start sequence may fill, may be
    found emptied. *)
Definition within (origin : Msg) (s0 s : State) : Prop :=
  match origin with
  | AuthChanged _ => True
  | _ => userProfile s = userProfile s0
  end /\
  match origin with
  | DeviceChanged _ => True
  | _ => connected s = connected s0
  end /\
  match origin with
  | AssignedSnapshot _ => True
  | _ => assignedExercises s = assignedExercises s0 /\
         loadingExercises s = loadingExercises s0
  end /\
  match origin with
  | ResponsesSnapshot _ | FetchTimer _ => True
  | _ => recommendations s = recommendations s0 /\
         loadingRecommendations s = loadingRecommendations s0
  end /\
  match origin with
  | StartClicked _ | StopClicked => True
  | _ => sessionLoading s = sessionLoading s0
  end /\
  match origin with
  | StartClicked _ => True
  | _ => slot s = slot s0 \/ slot s = (None, None)
  end.

(** A handler that keeps within its cells in every segment between two
    of its [await]s. *)
Definition framed (origin : Msg)
  : bool -> Dash unit -> State -> State -> Prop :=
  obeys (fun _ => True) (within origin) (within origin) (within origin).

Definition task_framed (task : Msg * DashTask) : Prop :=
  match snd task with
  | Suspended _ k => forall r s, framed (fst task) false (k r) s s
  end.

Definition is_timer (e : Event) : bool :=
  match e with
  | ESetTimeout _ _ => true
  | _ => false
  end.

(** The store rejects every write to a progress record. *)
Definition progress_writes_fail : World :=
  mkWorld (fun _ => Ok tt) (fun _ => Ok tt) (fun _ => Ok "P1")
          (fun _ => Throw (an_Error "permission-denied"))
          (fun _ => Ok (mkResponse 200 true (Ok batch_text)))
          (fun h => 1000 + Z.of_nat (length h))
          (table_parse known_texts).

(** A second assignment of the same patient. *)
Definition heel_slides : AssignedExercise :=
  mkAssigned "E2" "heel-slides" "Heel Slides" 0 120 15 90
             assigned 1000 None.

(** Scenario A with two assignments listed, the session of the first
    running. *)
Definition two_listed : State :=
  final_state
    (run (handle (AssignedSnapshot [knee_extension_running; heel_slides]))
         cooperative [] in_session).

(** The busy flag, if it was up, is still up. *)
Definition flag_held (s0 s : State) : Prop :=
  sessionLoading s0 = true -> sessionLoading s = true.

(** A handler that lowers the busy flag only when it ends after an
    [await], and only if it serves a start or a stop request. *)
Definition holding (origin : Msg)
  : bool -> Dash unit -> State -> State -> Prop :=
  obeys (fun _ => True) flag_held flag_held
        (if is_session_request origin then fun _ _ => True else flag_held).

Definition task_holding (task : Msg * DashTask) : Prop :=
  match snd task with
  | Suspended _ k => forall r s, holding (fst task) false (k r) s s
  end.

(* ================================================================== *)
(** * Proof support *)
(* ================================================================== *)

(** Unfold the imported operations down to the constructors of [Prog]. *)
Ltac unfold_ops :=
  unfold startRecording, stopRecording, updateAssignedExercise,
    createExerciseProgress, updateExerciseProgress, fetch, toast,
    console_error, dateNow, setSessionLoading, setActiveAssignmentId,
    setActiveProgressId, setRecommendations, setLoadingRecommendations,
    setAssignedExercises, setLoadingExercises, response_json, send in *;
  unfold closure, modify, emit, ask, await in *.

Ltac unfold_run := unfold settlement, final_state, issued in *.

Lemma truthy_string_true (s : string) : s <> "" -> truthy_string s = true.
Proof.
  intros H. unfold truthy_string.
  destruct (String.eqb_spec s ""); [contradiction | reflexivity].
Qed.

Lemma truthy_string_inv (s : string) : truthy_string s = true -> s <> "".
Proof.
  unfold truthy_string. intros H ->. discriminate H.
Qed.

Lemma truthy_held (o : option string) (a : string) :
  o = Some a -> a <> "" -> truthy o = true.
Proof. intros -> H. now apply truthy_string_true. Qed.

Lemma busy_flag_round_trip (s : State) :
  sessionLoading s = false ->
  with_sessionLoading false (with_sessionLoading true s) = s.
Proof. destruct s; cbn; intros ->; reflexivity. Qed.

(* ================================================================== *)
(** * Start and stop sequences, run alone *)
(* ================================================================== *)

(** The run of an admitted start request, by the outcome of its steps. *)
Lemma start_sequence_run
    (w : World) (h : list Event) (s : State) (exercise : AssignedExercise)
    (patient : string) :
  start_admitted s patient ->
  run (handleStartExercise exercise) w h s =
    match start_outcome w h exercise with
    | Throw e =>
        (Ok tt, s,
         start_call exercise
           :: start_failure w h patient exercise [start_call exercise] e)
    | Ok _ =>
    match in_progress_outcome w h patient exercise with
    | Throw e =>
        (Ok tt, s,
         start_call exercise :: in_progress_write patient exercise
           :: start_failure w h patient exercise
                [start_call exercise; in_progress_write patient exercise] e)
    | Ok _ =>
    match create_outcome w h patient exercise with
    | Throw e =>
        (Ok tt, s,
         start_call exercise :: in_progress_write patient exercise
           :: create_call w h patient exercise
           :: start_failure w h patient exercise
                [start_call exercise; in_progress_write patient exercise;
                 create_call w h patient exercise] e)
    | Ok progress =>
        (Ok tt, started exercise progress s,
         [start_call exercise; in_progress_write patient exercise;
          create_call w h patient exercise; started_notice exercise])
    end end end.
Proof.
  intros ((Huid & Hne) & Hc & Hl & Ha).
  unfold run, handleStartExercise. unfold_ops.
  cbn. rewrite Huid, (truthy_string_true Hne), Hc, Hl, Ha. cbn.
  unfold start_outcome, in_progress_outcome, create_outcome, start_failure,
    create_call, in_progress_write, start_call, revert_write, started,
    started_notice.
  cbn [app].
  destruct (dev_startRecording w _) as [[]|e1]; cbn.
  - destruct (store_updateAssignedExercise w (h ++ [_; _])) as [[]|e2]; cbn.
    + destruct (store_createExerciseProgress w _) as [progress|e3]; cbn.
      * destruct s; cbn in *; subst; reflexivity.
      * destruct (store_updateAssignedExercise w (h ++ _ :: _ :: _ :: _))
          as [[]|e4]; cbn; rewrite (busy_flag_round_trip s Hl); reflexivity.
    + destruct (store_updateAssignedExercise w (h ++ _ :: _ :: _ :: _))
        as [[]|e4]; cbn; rewrite (busy_flag_round_trip s Hl); reflexivity.
  - destruct (store_updateAssignedExercise w _)
      as [[]|e4]; cbn; rewrite (busy_flag_round_trip s Hl); reflexivity.
Qed.

(** The run of a stop request that passes the guard, by the outcome of
    its steps. *)
Lemma stop_sequence_run
    (w : World) (h : list Event) (s : State) (patient active : string) :
  signed_in s patient -> holds s active ->
  run handleCompleteExercise w h s =
    (Ok tt, idle s,
     EStopRecording :: completed_write w h patient active ::
       match completed_outcome w h patient active with
       | Throw e => stop_failure e
       | Ok _ =>
           match progress_record s with
           | Some progress =>
               progress_write w h patient progress ::
                 match progress_outcome w h patient active progress with
                 | Throw e => stop_failure e
                 | Ok _ => stop_success s
                 end
           | None => stop_success s
           end
       end).
Proof.
  intros (Huid & Hne) (Ha & Hane).
  unfold run, handleCompleteExercise. unfold_ops.
  cbn. rewrite Huid, Ha, (truthy_string_true Hne), (truthy_string_true Hane).
  cbn.
  unfold completed_outcome, progress_outcome, progress_record, progress_write,
    completed_write, stop_time, stop_success, stop_failure, idle.
  destruct (store_updateAssignedExercise w _) as [[]|e1]; cbn.
  - destruct (activeProgressId s) as [progress|] eqn:Hp; cbn.
    + destruct (truthy_string progress); cbn.
      * destruct (store_updateExerciseProgress w _) as [[]|e2]; cbn;
          destruct s; reflexivity.
      * destruct s; reflexivity.
    + destruct s; reflexivity.
  - destruct s; reflexivity.
Qed.

(* ================================================================== *)
(** * Reconciliation *)
(* ================================================================== *)

Lemma Status_eqb_eq (a b : Status) : Status_eqb a b = true <-> a = b.
Proof. destruct a, b; cbn; split; congruence. Qed.

(** The reconciliation effect either forces the machine idle or does
    nothing at all. *)
Lemma reconcile_run (w : World) (h : list Event) (s : State) :
  (exists active, reported_completed s active /\
     run reconcileEffect w h s = (Ok tt, slot_cleared s, [EStopRecording])) \/
  ((forall active, ~ reported_completed s active) /\
   run reconcileEffect w h s = (Ok tt, s, [])).
Proof.
  unfold run, reconcileEffect, reported_completed, holds, slot_cleared.
  unfold_ops. cbn.
  destruct (activeAssignmentId s) as [active|] eqn:Ha; cbn.
  2:{ right. split; [|reflexivity]. intros a ((? & _) & _). discriminate. }
  destruct (truthy_string active) eqn:Ht; cbn.
  2:{ right. split; [|reflexivity]. intros a (([= <-] & Hne) & _).
      now rewrite (truthy_string_true Hne) in Ht. }
  destruct (find _ (assignedExercises s)) as [ex|] eqn:Hf; cbn.
  2:{ right. split; [|reflexivity].
      intros a (([= <-] & _) & ex & Hex & _). congruence. }
  destruct (Status_eqb (status ex) completed) eqn:Hs; cbn.
  - left. exists active. apply Status_eqb_eq in Hs.
    split; [|reflexivity].
    split; [split; [reflexivity | now apply truthy_string_inv]|].
    now exists ex.
  - right. split; [|reflexivity].
    intros a (([= <-] & _) & ex' & Hex & Hst).
    rewrite Hf in Hex. injection Hex as <-.
    apply Status_eqb_eq in Hst. congruence.
Qed.

(* ================================================================== *)
(** * The recommendation fetcher *)
(* ================================================================== *)

(** The code's test for a recommendations array selects exactly the
    objects that hold an array under [recommendations]. *)
Lemma normalized_branches (data : json) (prior : list json) :
  normalized data prior =
    if truthy_json (prop "recommendations" data)
       && isArray (prop "recommendations" data)
    then match prop "recommendations" data with
         | Some (JArr items) => items
         | _ => prior
         end
    else if truthy_json (prop "recommendedExercise" data) then [data]
    else prior.
Proof.
  unfold normalized, recommendation_shaped.
  destruct (prop "recommendations" data) as [[| | | | |]|]; cbn;
    try reflexivity; now rewrite ?andb_false_r.
Qed.

Lemma with_recommendations_same (s : State) :
  with_recommendations (recommendations s) s = s.
Proof. destruct s; reflexivity. Qed.

(** The run of the fetcher for a signed-in patient, by the answer of the
    advisory endpoint. *)
Lemma fetch_run (w : World) (h : list Event) (s : State)
    (profile : UserProfile) :
  run (fetchNetworkRecommendation (Some profile)) w h s =
    match net_fetch w (h ++ [advisory_request profile]) with
    | Throw e => fetch_failed profile e s
    | Ok response =>
        if r_ok response then
          match parsed_body (JSON_parse w) response with
          | Throw e => fetch_failed profile e s
          | Ok data =>
              (Ok tt,
               with_loadingRecommendations false
                 (with_recommendations
                    (normalized data (recommendations s)) s),
               [advisory_request profile])
          end
        else
          (Ok tt, with_loadingRecommendations false s,
           [advisory_request profile;
            EConsoleError "Failed to fetch n8n response" None])
    end.
Proof.
  unfold run, fetchNetworkRecommendation. unfold_ops. cbn.
  unfold advisory_request, fetch_failed, parsed_body.
  destruct (net_fetch w _) as [response|e]; cbn; [|reflexivity].
  destruct (r_ok response); cbn; [|reflexivity].
  destruct (r_text response) as [text|e]; cbn; [|reflexivity].
  destruct (JSON_parse w text) as [data|e]; cbn; [|reflexivity].
  rewrite normalized_branches.
  destruct (prop "recommendations" data) as [[| | | | |]|]; cbn;
    try (destruct (truthy_json (prop "recommendedExercise" data)); cbn;
         rewrite ?with_recommendations_same; reflexivity);
    rewrite ?andb_false_r; cbn;
    try (destruct (truthy_json (prop "recommendedExercise" data)); cbn;
         rewrite ?with_recommendations_same; reflexivity).
Qed.


(* ================================================================== *)
(** * Guards *)
(* ================================================================== *)

(** A start request is admitted, or it is turned away without a trace in
    the state. *)
Lemma start_guard_cases
    (w : World) (h : list Event) (s : State) (exercise : AssignedExercise) :
  (exists patient, start_admitted s patient) \/
  run (handleStartExercise exercise) w h s = (Ok tt, s, rejection_notice s).
Proof.
  unfold start_admitted, signed_in, rejection_notice, run,
    handleStartExercise.
  unfold_ops. cbn.
  destruct (profile_uid s) as [patient|] eqn:Huid; cbn; [|now right].
  destruct (truthy_string patient) eqn:Hp; cbn; [|now right].
  destruct (connected s) eqn:Hc; cbn; [|now right].
  destruct (sessionLoading s) eqn:Hl; cbn; [now right|].
  destruct (truthy (activeAssignmentId s)) eqn:Ha; cbn; [now right|].
  left. exists patient. repeat split. now apply truthy_string_inv.
Qed.

(** A stop request passes the guard, or nothing happens. *)
Lemma stop_guard_cases (w : World) (h : list Event) (s : State) :
  (exists patient active, signed_in s patient /\ holds s active) \/
  run handleCompleteExercise w h s = (Ok tt, s, []).
Proof.
  unfold signed_in, holds, run, handleCompleteExercise. unfold_ops. cbn.
  destruct (profile_uid s) as [patient|] eqn:Huid; cbn; [|now right].
  destruct (activeAssignmentId s) as [active|] eqn:Ha; cbn; [|now right].
  destruct (truthy_string patient) eqn:Hp; cbn; [|now right].
  destruct (truthy_string active) eqn:Ht; cbn; [|now right].
  left. exists patient, active.
  repeat split; now apply truthy_string_inv.
Qed.


(* ================================================================== *)
(** * The webhook forwarder *)
(* ================================================================== *)

(** Of the two handlers registered for the path, the first answers. *)
Lemma forwarder_is_first_registration :
  route POST "/api/n8n/patient-query" = Some patient_query.
Proof. reflexivity. Qed.

(** The run of the forwarder, by the answer of the upstream. *)
Lemma forwarder_run (w : ServerWorld) (h : list ServerEvent) (req_body : json) :
  run (forwarder req_body) w h tt =
    (Ok tt, tt,
     SFetch n8n_url req_body ::
       match node_fetch w (h ++ [SFetch n8n_url req_body]) with
       | Throw e => transport_failure e
       | Ok response =>
           match r_text response with
           | Throw e => transport_failure e
           | Ok text =>
               [relayed response (tolerant_parse (node_JSON_parse w) text)]
           end
       end).
Proof.
  unfold run, forwarder. rewrite forwarder_is_first_registration.
  unfold patient_query, safeParseJSON, transport_failure, relayed,
    tolerant_parse.
  unfold_ops. cbn.
  destruct (node_fetch w _) as [response|e]; cbn; [|reflexivity].
  destruct (r_text response) as [text|e]; cbn; [|reflexivity].
  destruct (node_JSON_parse w text) as [data|e]; reflexivity.
Qed.

Lemma table_parse_grammatical (table : list (string * json)) :
  forallb (fun entry => json_text_start (fst entry)) table = true ->
  grammatical (table_parse table).
Proof.
  intros Htable text data. unfold table_parse.
  destruct (assoc text table) as [v|] eqn:Hfound; [intros _|discriminate].
  induction table as [|[k v'] rest IH]; [discriminate|].
  cbn in Htable, Hfound. apply andb_true_iff in Htable as (Hk & Hrest).
  destruct (String.eqb_spec text k) as [->|_]; [exact Hk | now apply IH].
Qed.

(** A start request that meets a failed guard is turned away. *)
Lemma start_guard_rejects
    (w : World) (h : list Event) (s : State) (exercise : AssignedExercise) :
  connected s = false \/ sessionLoading s = true \/ (exists a, holds s a) ->
  rejected w h s exercise.
Proof.
  intros guard. unfold rejected.
  destruct (start_guard_cases w h s exercise)
    as [(patient & _ & Hc & Hl & Ha) | ->].
  - exfalso. destruct guard as [H | [H | (a & H & Hne)]]; try congruence.
    rewrite (truthy_held H Hne) in Ha. discriminate.
  - unfold_run. cbn [fst snd]. split; [reflexivity|]. split; [reflexivity|].
    unfold rejection_notice, signed_in, quiet.
    destruct (profile_uid s) as [patient|].
    2:{ split; [constructor | intros p [? _]; discriminate]. }
    destruct (truthy_string patient) eqn:Hp.
    2:{ split; [constructor |].
        intros p [[= <-] Hne]. now rewrite (truthy_string_true Hne) in Hp. }
    split; [|reflexivity].
    constructor; [|constructor]. now destruct (connected s).
Qed.

(* ================================================================== *)
(** * The two readings of a program agree *)
(* ================================================================== *)

(** Running a handler alone is advancing it to its next [await], settling
    the awaited call, and running the rest alone; a handler that does not
    suspend ends where its run alone ends. *)
Lemma exec_advance (p : Dash unit) :
  forall w h out s,
    match advance p w h out s with
    | (s', out', None) =>
        final_state (exec p w h out s) = s' /\
        issued (exec p w h out s) = out'
    | (s', out', Some (Suspended awaited k)) =>
        exec p w h out s
          = exec (k (settle awaited w (h ++ out'))) w h out' s'
    end.
Proof.
  induction p as [a | e | k IH | f k IH | e k IH | R q k IH | R c k IH];
    cbn; intros w h out s; try (now split); apply IH.
Qed.

(* ================================================================== *)
(** * Disciplined handlers *)
(* ================================================================== *)

Section DisciplineFacts.
Variable Resume : State -> Prop.
Variables AtAwait AtOnce AtEnd : State -> State -> Prop.

(** A program that obeys a discipline delivers it when it is advanced to
    its next [await]. *)
Lemma advance_obeys (fresh : bool) (p : Dash unit) :
  forall w h out s0 s,
    obeys Resume AtAwait AtOnce AtEnd fresh p s0 s ->
    match advance p w h out s with
    | (s', _, None) => if fresh then AtOnce s0 s' else AtEnd s0 s'
    | (s', _, Some (Suspended _ k)) =>
        AtAwait s0 s' /\
        forall r s'', Resume s'' ->
          obeys Resume AtAwait AtOnce AtEnd false (k r) s'' s''
    end.
Proof.
  induction p as [a | e | k IH | f k IH | e k IH | R q k IH | R c k IH];
    cbn; intros w h out s0 s Hp; try exact Hp; now apply IH.
Qed.
End DisciplineFacts.

Arguments advance_obeys {Resume AtAwait AtOnce AtEnd fresh p} w h out {s0 s} _.

Lemma slot_consistent_frame (s s' : State) :
  slot s' = slot s -> slot_consistent s -> slot_consistent s'.
Proof. unfold slot_consistent. now intros ->. Qed.

Lemma slot_consistent_empty (s : State) :
  slot s = (None, None) -> slot_consistent s.
Proof. now left. Qed.

Lemma slot_consistent_pair (s : State) (a p : string) :
  slot s = (Some a, Some p) -> a <> "" -> slot_consistent s.
Proof. intros Hs Ha. right. now exists a, p. Qed.

(** The leaves of a discipline: the slot was left alone, emptied, or
    filled with a pair; the flag was left alone or lowered. *)
Ltac leaf :=
  unfold flag_down, flag_kept, slot_kept, slot_emptied;
  repeat split;
  try solve
    [ assumption
    | reflexivity
    | match goal with
      | H : slot_consistent ?s |- slot_consistent _ =>
          apply (@slot_consistent_frame s); [destruct s; reflexivity | exact H]
      end
    | match goal with |- slot ?t = _ =>
        match t with context [?s] =>
          is_var s; destruct s; reflexivity
        end
      end
    | apply slot_consistent_empty;
      match goal with |- slot ?t = _ =>
        match t with context [?s] =>
          is_var s; destruct s; reflexivity
        end
      end
    | match goal with
      | H : ?a <> "" |- slot_consistent _ =>
          eapply slot_consistent_pair; [|exact H];
          match goal with |- slot ?t = _ =>
            match t with context [?s] =>
              is_var s; destruct s; reflexivity
            end
          end
      end
    | match goal with
      | |- sessionLoading ?t = _ =>
          match t with context [?s] =>
            is_var s; destruct s; reflexivity
          end
      end ].

(** Walk a program along its [await]s, settling every call both ways. *)
Ltac walk :=
  repeat (cbn;
    match goal with
    | |- _ /\ _ => split
    | |- forall _, _ => intro
    | |- context [match ?r with Ok _ => _ | Throw _ => _ end] =>
        is_var r; destruct r
    | |- context [lift ?r] => is_var r; destruct r
    end); cbn.

Lemma start_disciplined (exercise : AssignedExercise) (s : State) :
  id exercise <> "" -> slot_consistent s ->
  discipline (StartClicked exercise) true (handleStartExercise exercise) s s.
Proof.
  intros Hid Hs. unfold discipline, at_await, at_end, handleStartExercise.
  unfold_ops. cbn.
  destruct (profile_uid s) as [patient|]; cbn; [|leaf].
  destruct (truthy_string patient); cbn; [|leaf].
  destruct (connected s); cbn; [|leaf].
  destruct (sessionLoading s || truthy (activeAssignmentId s)); cbn; [leaf|].
  walk; leaf.
Qed.

Lemma stop_disciplined (s : State) :
  slot_consistent s ->
  discipline StopClicked true handleCompleteExercise s s.
Proof.
  intros Hs. unfold discipline, at_await, at_end, handleCompleteExercise.
  unfold_ops. cbn.
  destruct (profile_uid s) as [patient|]; cbn; [|leaf].
  destruct (activeAssignmentId s) as [active|]; cbn; [|leaf].
  destruct (negb (truthy_string patient) || negb (truthy_string active));
    cbn; [leaf|].
  walk; try leaf.
  all: destruct (activeProgressId s) as [progress|]; cbn; try leaf.
  all: destruct (truthy_string progress); walk; leaf.
Qed.

Lemma reconcile_disciplined (s : State) :
  slot_consistent s ->
  obeys slot_consistent flag_kept flag_kept flag_kept true reconcileEffect
        s s.
Proof.
  intros Hs. unfold reconcileEffect. unfold_ops. cbn.
  destruct (activeAssignmentId s) as [active|]; cbn; [|leaf].
  destruct (truthy_string active); cbn; [|leaf].
  destruct (find _ (assignedExercises s)) as [ex|]; cbn; [|leaf].
  destruct (Status_eqb (status ex) completed); cbn; leaf.
Qed.

Lemma fetch_disciplined (captured : option UserProfile) (s : State) :
  slot_consistent s ->
  discipline (FetchTimer captured) true
             (fetchNetworkRecommendation captured) s s.
Proof.
  intros Hs. unfold discipline, at_await, at_end, fetchNetworkRecommendation.
  unfold_ops. cbn [is_session_request].
  destruct captured as [profile|]; cbn; [|leaf].
  walk; try leaf.
  match goal with |- context [r_ok ?response] => destruct (r_ok response) end;
    walk; try leaf.
  match goal with
  | |- context [prop "recommendations" ?data] =>
      destruct (truthy_json (prop "recommendations" data)
                && isArray (prop "recommendations" data)); cbn;
      [ destruct (prop "recommendations" data) as [[| | | | |]|]
      | destruct (truthy_json (prop "recommendedExercise" data)) ]
  end; cbn; leaf.
Qed.

Lemma handle_disciplined (m : Msg) (s : State) :
  admissible m -> slot_consistent s ->
  discipline m true (handle m) s s.
Proof.
  intros Hm Hs. destruct m; cbn [handle].
  - unfold discipline. cbn. leaf.
  - unfold discipline. cbn. leaf.
  - unfold discipline, at_await, at_end, whenProfile, onAssignedSnapshot.
    unfold_ops. cbn. destruct (userProfile s); cbn; leaf.
  - unfold discipline, at_await, at_end, whenProfile, onResponsesSnapshot.
    unfold_ops. cbn. destruct (userProfile s); cbn; leaf.
  - now apply fetch_disciplined.
  - now apply start_disciplined.
  - now apply stop_disciplined.
Qed.

(* ================================================================== *)
(** * The event loop keeps the component coherent *)
(* ================================================================== *)

(** The render that ends a turn keeps the slot consistent and the flag as
    it is. *)
Lemma render_keeps (w : World) (h out : list Event) (s : State) :
  slot_consistent s ->
  flag_kept s (fst (fst (advance reconcileEffect w h out s))).
Proof.
  intros Hs.
  pose proof (advance_obeys w h out (reconcile_disciplined Hs)) as H.
  destruct (advance reconcileEffect w h out s) as [[s2 out2] [[R c k]|]];
    cbn; [exact (proj1 H) | exact H].
Qed.

Lemma in_flight_bystander (others : list (Msg * DashTask))
    (task : Msg * DashTask) :
  is_session_request (fst task) = false ->
  existsb (fun t => is_session_request (fst t)) (others ++ [task]) =
  existsb (fun t => is_session_request (fst t)) others.
Proof.
  intros H. rewrite existsb_app. cbn. rewrite H. now rewrite !orb_false_r.
Qed.

Lemma in_flight_session (others : list (Msg * DashTask))
    (task : Msg * DashTask) :
  is_session_request (fst task) = true ->
  existsb (fun t => is_session_request (fst t)) (others ++ [task]) = true.
Proof.
  intros H. rewrite existsb_app. cbn. rewrite H. apply orb_true_r.
Qed.

(** A turn of a disciplined program, next to disciplined others, leaves
    the component coherent. *)
Lemma at_end_session (origin : Msg) (s0 s : State) :
  is_session_request origin = true -> at_end origin s0 s -> flag_down s0 s.
Proof.
  destruct origin; try discriminate; intros _; cbn; [tauto|].
  intros (Hslot & Hflag). split; [now left | exact Hflag].
Qed.

Lemma at_end_bystander (origin : Msg) (s0 s : State) :
  is_session_request origin = false -> at_end origin s0 s -> flag_kept s0 s.
Proof. destruct origin; try discriminate; intros _; cbn; tauto. Qed.

(** A turn of a disciplined program, next to disciplined others, leaves
    the component coherent. *)
Lemma turn_coherent (c : Config) (w : World) (origin : Msg) (fresh : bool)
    (p : Dash unit) (others : list (Msg * DashTask)) :
  slot_consistent (cells c) ->
  discipline origin fresh p (cells c) (cells c) ->
  Forall task_disciplined others ->
  (is_session_request origin && negb fresh = false ->
   sessionLoading (cells c) = true ->
   existsb (fun t => is_session_request (fst t)) others = true) ->
  coherent (turn c w origin p others).
Proof.
  intros Hs Hp Hothers Hflag.
  unfold coherent, in_flight, turn. cbn [cells log pending].
  set (seg := advance p w (log c) [] (cells c)) in *.
  pose proof (advance_obeys w (log c) [] Hp) as H. fold seg in H.
  destruct seg as [[s1 out1] [[R awaited k]|]]; cbn [fst snd] in *.
  - (* suspended *)
    destruct H as (Hawait & Hk).
    assert (Htask : task_disciplined (origin, Suspended awaited k))
      by (intros r s Hr; now apply Hk).
    unfold at_await in Hawait.
    destruct (is_session_request origin) eqn:Horigin.
    + destruct (render_keeps w (log c) out1 Hawait) as (Hs2 & Hf2).
      split; [exact Hs2|]. split.
      * apply Forall_app. split; [exact Hothers | now constructor].
      * intros _. now apply in_flight_session.
    + destruct Hawait as (Hs1 & Hf1).
      destruct (render_keeps w (log c) out1 Hs1) as (Hs2 & Hf2).
      split; [exact Hs2|]. split.
      * apply Forall_app. split; [exact Hothers | now constructor].
      * rewrite Hf2, Hf1, in_flight_bystander by exact Horigin.
        now apply Hflag.
  - (* ended *)
    rewrite app_nil_r.
    assert (Hend : (is_session_request origin && negb fresh = true /\
                    flag_down (cells c) s1) \/
                   (is_session_request origin && negb fresh = false /\
                    flag_kept (cells c) s1)).
    { destruct fresh.
      - right. now rewrite andb_false_r.
      - rewrite andb_true_r.
        destruct (is_session_request origin) eqn:Horigin.
        + left. split; [reflexivity|]. now apply (at_end_session origin).
        + right. split; [reflexivity|]. now apply (at_end_bystander origin). }
    destruct Hend as [(_ & Hs1 & Hf1) | (Hkind & Hs1 & Hf1)];
      destruct (render_keeps w (log c) out1 Hs1) as (Hs2 & Hf2);
      (split; [exact Hs2|]); (split; [exact Hothers|]); rewrite Hf2, Hf1.
    + discriminate.
    + now apply Hflag.
Qed.

Lemma Turn_coherent (c c' : Config) :
  coherent c -> Turn c c' -> coherent c'.
Proof.
  intros (Hs & Htasks & Hflag) Hturn.
  destruct Hturn as [c w m Hm | c w origin R awaited k before after Hp].
  - apply turn_coherent with (fresh := true); auto.
    now apply handle_disciplined.
  - rewrite Hp in Htasks. apply Forall_app in Htasks as (Hb & Ha).
    inversion Ha as [|task rest Htask Hafter]; subst.
    apply turn_coherent with (fresh := false).
    + exact Hs.
    + now apply Htask.
    + now apply Forall_app.
    + rewrite andb_true_r. intros Horigin Hl.
      specialize (Hflag Hl). unfold in_flight in Hflag.
      rewrite Hp, existsb_app in Hflag. cbn in Hflag.
      rewrite Horigin in Hflag. rewrite existsb_app. exact Hflag.
Qed.

Lemma reachable_coherent (c : Config) : Reachable c -> coherent c.
Proof.
  induction 1 as [profile is_connected | c c' _ IH Hturn].
  - split; [now left|]. split; [constructor | discriminate].
  - now apply (Turn_coherent IH).
Qed.

(** In a reachable state a slot that is not null holds a non-empty id. *)
Lemma reachable_holds (c : Config) :
  Reachable c -> activeAssignmentId (cells c) <> None ->
  exists a, holds (cells c) a.
Proof.
  intros Hc Hnn.
  destruct (reachable_coherent Hc) as ([Hnone | (a & p & Hslot & Ha)] & _).
  - unfold slot in Hnone. injection Hnone as Hnone _. contradiction.
  - unfold slot in Hslot. injection Hslot as Haid _. now exists a.
Qed.

(** The schedules take turns. *)
Lemma deliver_Turn (m : Msg) (w : World) (c : Config) :
  admissible m -> Turn c (deliver m w c).
Proof. intros Hm. now apply turn_message. Qed.

Lemma settle_oldest_Turn (w : World) (c : Config) :
  pending c <> [] -> Turn c (settle_oldest w c).
Proof.
  unfold settle_oldest. intros Hp.
  destruct (pending c) as [|[origin [R awaited k]] others] eqn:E;
    [contradiction|].
  now apply (@turn_settlement c w origin R awaited k [] others).
Qed.

(** The effect as it runs in a render: it never suspends, and does what it
    does when run alone. *)
Lemma reconcile_render (w : World) (h out : list Event) (s : State) :
  (exists active, reported_completed s active /\
     advance reconcileEffect w h out s
       = (slot_cleared s, out ++ [EStopRecording], None)) \/
  ((forall active, ~ reported_completed s active) /\
   advance reconcileEffect w h out s = (s, out, None)).
Proof.
  unfold reconcileEffect, reported_completed, holds, slot_cleared.
  unfold_ops. cbn.
  destruct (activeAssignmentId s) as [active|] eqn:Ha; cbn.
  2:{ right. split; [|reflexivity]. intros a ((? & _) & _). discriminate. }
  destruct (truthy_string active) eqn:Ht; cbn.
  2:{ right. split; [|reflexivity]. intros a (([= <-] & Hne) & _).
      now rewrite (truthy_string_true Hne) in Ht. }
  destruct (find _ (assignedExercises s)) as [ex|] eqn:Hf; cbn.
  2:{ right. split; [|reflexivity].
      intros a (([= <-] & _) & ex & Hex & _). congruence. }
  destruct (Status_eqb (status ex) completed) eqn:Hs; cbn.
  - left. exists active. apply Status_eqb_eq in Hs.
    split; [|reflexivity].
    split; [split; [reflexivity | now apply truthy_string_inv]|].
    now exists ex.
  - right. split; [|reflexivity].
    intros a (([= <-] & _) & ex' & Hex & Hst).
    rewrite Hf in Hex. injection Hex as <-.
    apply Status_eqb_eq in Hst. congruence.
Qed.

(** The turn of a snapshot of the assigned exercises. *)
Lemma snapshot_turn (c : Config) (w : World)
    (exercises : list AssignedExercise) (profile : UserProfile) :
  userProfile (cells c) = Some profile ->
  deliver (AssignedSnapshot exercises) w c =
    let stored := with_loadingExercises false
                    (with_assignedExercises exercises (cells c)) in
    let rendered := advance reconcileEffect w (log c) [] stored in
    mkConfig (fst (fst rendered)) (log c ++ snd (fst rendered)) (pending c).
Proof.
  intros Hp. unfold deliver, turn. cbn [handle].
  unfold whenProfile, onAssignedSnapshot. unfold_ops. cbn.
  rewrite Hp. cbn. now rewrite app_nil_r.
Qed.

(** The turn in which a suspended handler ends: a start sequence leaves
    the busy flag down, a stop sequence moreover the slot empty, any other
    handler the flag as it was. *)
Lemma sequence_ends (c : Config) (w : World) (origin : Msg) (R : Type)
    (awaited : Call R) (k : Result R -> Dash unit)
    (before after : list (Msg * DashTask)) :
  coherent c ->
  pending c = before ++ (origin, Suspended awaited k) :: after ->
  pending (turn c w origin (k (settle awaited w (log c))) (before ++ after))
    = before ++ after ->
  match origin with
  | StartClicked _ =>
      sessionLoading
        (cells (turn c w origin (k (settle awaited w (log c)))
                  (before ++ after))) = false
  | StopClicked =>
      slot (cells (turn c w origin (k (settle awaited w (log c)))
                     (before ++ after))) = (None, None) /\
      sessionLoading
        (cells (turn c w origin (k (settle awaited w (log c)))
                  (before ++ after))) = false
  | _ =>
      sessionLoading
        (cells (turn c w origin (k (settle awaited w (log c)))
                  (before ++ after))) = sessionLoading (cells c)
  end.
Proof.
  intros (Hs & Htasks & _) Hp.
  rewrite Hp in Htasks. apply Forall_app in Htasks as (_ & Htasks).
  inversion Htasks as [|task rest Htask _]; subst.
  specialize (Htask (settle awaited w (log c)) (cells c) Hs).
  cbn [fst snd] in Htask.
  unfold turn. cbn [cells pending].
  pose proof (advance_obeys w (log c) [] Htask) as H.
  destruct (advance (k (settle awaited w (log c))) w (log c) [] (cells c))
    as [[s1 out1] [[R' awaited' k']|]]; cbn [fst snd] in *.
  - intros Hsame. exfalso.
    rewrite <- (app_nil_r (before ++ after)) in Hsame at 2.
    apply app_inv_head in Hsame. discriminate.
  - intros _.
    destruct origin; cbn in H;
      try (destruct H as (Hs1 & Hf1);
           destruct (render_keeps w (log c) out1 Hs1) as (_ & Hf2);
           now rewrite Hf2).
    destruct H as (Hslot & Hf1).
    destruct (reconcile_render w (log c) out1 s1)
      as [(a & ((Hheld & _) & _) & _) | (_ & ->)].
    + unfold slot in Hslot. injection Hslot as Hnone _. congruence.
    + now split.
Qed.

Arguments sequence_ends {c} w {origin R awaited k before after} _ _ _.

(* ================================================================== *)
(** * The steps of a start sequence, turn by turn *)
(* ================================================================== *)

Ltac stage_leaf :=
  solve [ reflexivity
        | match goal with
          | |- slot ?t = _ =>
              match t with context [?s] => is_var s; destruct s; reflexivity
              end
          end
        | eexists; reflexivity
        | do 2 eexists; reflexivity ].

(** The handler of a start request keeps to the steps, from the first. *)
Lemma start_staged (exercise : AssignedExercise) (s : State) :
  staged exercise at_device (handleStartExercise exercise) s s.
Proof.
  unfold handleStartExercise. unfold_ops. cbn.
  destruct (profile_uid s) as [patient|]; cbn; [|stage_leaf].
  destruct (truthy_string patient); cbn; [|stage_leaf].
  destruct (connected s); cbn; [|stage_leaf].
  destruct (sessionLoading s || truthy (activeAssignmentId s)); cbn;
    [stage_leaf|].
  walk; stage_leaf.
Qed.

(** A program that keeps to the steps, run up to its next [await]. *)
Lemma advance_staged (exercise : AssignedExercise) (p : Dash unit) :
  forall stage w h out s0 s,
    staged exercise stage p s0 s ->
    match advance p w h out s with
    | (s', _, None) =>
        match stage with
        | filling progress => slot s' = (Some (id exercise), Some progress)
        | _ => slot s' = slot s0
        end
    | (s', _, Some task) => slot s' = slot s0 /\ at_stage exercise stage task
    end.
Proof.
  induction p as [a | e | k IH | f k IH | e k IH | R q k IH | R c k IH];
    intros stage w h out s0 s Hp; cbn in *.
  - exact Hp.
  - exact Hp.
  - now apply IH.
  - now apply IH.
  - now apply IH.
  - now apply IH.
  - destruct Hp as (Hslot & Hcall & Hk). now repeat split.
Qed.

Arguments advance_staged exercise p stage w h out {s0 s} _.

(** The slot is filled by the settlement of the creation only. *)
Lemma next_stage_filling (stage : StartStage) (R : Type) (c : Call R)
    (w : World) (h : list Event) (progress : string) :
  next_stage stage c (settle c w h) = filling progress ->
  stage = at_creation /\
  (exists patient fields, issue c = [ECreateExerciseProgress patient fields])
  /\ store_createExerciseProgress w h = Ok progress.
Proof.
  destruct c; cbn;
    try (destruct stage;
         match goal with
         | |- context [match ?r with Ok _ => _ | Throw _ => _ end] =>
             destruct r
         | _ => idtac
         end; discriminate).
  destruct stage; try discriminate.
  destruct (store_createExerciseProgress w h) as [created|];
    [|discriminate].
  intros [= ->]. split; [reflexivity|]. split; [|reflexivity].
  now eexists _, _.
Qed.

(** The render that ends a turn leaves the slot as it is, or empty. *)
Lemma render_slot (w : World) (h out : list Event) (s : State) :
  slot (fst (fst (advance reconcileEffect w h out s))) = slot s \/
  slot (fst (fst (advance reconcileEffect w h out s))) = (None, None).
Proof.
  destruct (reconcile_render w h out s) as [(a & _ & ->) | (_ & ->)];
    cbn [fst]; [right; destruct s; reflexivity | now left].
Qed.

(** A turn of a program that keeps to the steps. *)
Lemma turn_staged (c : Config) (w : World) (exercise : AssignedExercise)
    (stage : StartStage) (p : Dash unit) (others : list (Msg * DashTask)) :
  staged exercise stage p (cells c) (cells c) ->
  let c' := turn c w (StartClicked exercise) p others in
  (pending c' = others /\
   match stage with
   | filling progress =>
       slot (cells c') = (Some (id exercise), Some progress) \/
       slot (cells c') = (None, None)
   | _ => slot (cells c') = slot (cells c) \/ slot (cells c') = (None, None)
   end) \/
  (exists task,
     pending c' = others ++ [(StartClicked exercise, task)] /\
     at_stage exercise stage task /\
     (slot (cells c') = slot (cells c) \/ slot (cells c') = (None, None))).
Proof.
  intros Hp. unfold turn. cbn [cells pending].
  set (seg := advance p w (log c) [] (cells c)) in *.
  pose proof (advance_staged exercise p stage w (log c) [] Hp) as H.
  fold seg in H.
  destruct seg as [[s1 out1] [task|]]; cbn [fst snd] in *.
  - destruct H as (Hslot & Htask). right. exists task.
    split; [reflexivity|]. split; [exact Htask|].
    destruct (render_slot w (log c) out1 s1) as [-> | ->];
      [left; exact Hslot | now right].
  - left. rewrite app_nil_r. split; [reflexivity|].
    destruct (render_slot w (log c) out1 s1) as [-> | ->];
      destruct stage; solve [now left | now right].
Qed.

Arguments turn_staged c w {exercise stage p} others _.

(** In every reachable state each suspended start sequence stands at a
    stage. *)
Lemma reachable_staged (c : Config) :
  Reachable c -> start_tasks_staged (pending c).
Proof.
  induction 1 as [profile is_connected | c c' _ IH Hturn]; [constructor|].
  destruct Hturn as [c w m _ | c w origin R awaited k before after Hp].
  - destruct m as [profile | is_connected | exercises | docs | captured
                  | exercise | ];
      try solve [ unfold turn; cbn [pending]; apply Forall_app;
                  split; [exact IH|];
                  destruct (snd (advance _ w (log c) [] (cells c)));
                  repeat constructor ].
    cbn [handle].
    destruct (turn_staged c w (pending c) (start_staged exercise (cells c)))
      as [(-> & _) | (task & -> & Htask & _)]; [exact IH|].
    apply Forall_app. split; [exact IH|].
    constructor; [|constructor]. now exists at_device.
  - unfold start_tasks_staged in IH. rewrite Hp in IH.
    apply Forall_app in IH as (Hb & Ha).
    inversion Ha as [|task rest Htask Hafter]; subst.
    assert (Hothers : start_tasks_staged (before ++ after))
      by now apply Forall_app.
    destruct origin as [profile | is_connected | exercises | docs | captured
                       | exercise | ];
      try solve [ unfold turn; cbn [pending]; apply Forall_app;
                  split; [exact Hothers|];
                  destruct (snd (advance _ w (log c) [] (cells c)));
                  repeat constructor ].
    cbn [fst snd] in Htask. destruct Htask as (stage & _ & Hk).
    destruct (turn_staged c w (before ++ after)
                (Hk (settle awaited w (log c)) (cells c)))
      as [(-> & _) | (task & -> & Htask & _)]; [exact Hothers|].
    apply Forall_app. split; [exact Hothers|].
    constructor; [|constructor]. cbn. eexists. exact Htask.
Qed.

(* ================================================================== *)
(** * Start requests *)
(* ================================================================== *)

(** C2.  A start request made while the device is not connected, while a
    start is in flight ([sessionLoading]) or while the slot holds an
    assignment is rejected before any side effect: the handler returns
    normally, the state is exactly the state before, and no device command
    and no store write is issued; a signed-in patient gets the notice
    naming the violated precondition.  The slot counts as holding an
    assignment when its id is a non-empty string, as every id of a stored
    document is; in a reachable state that is whenever the slot is not
    null. *)
Theorem start_rejected_before_any_effect :
  (forall w h s exercise,
     connected s = false \/ sessionLoading s = true \/
       (exists a, holds s a) ->
     rejected w h s exercise) /\
  (forall c w h exercise,
     Reachable c -> activeAssignmentId (cells c) <> None ->
     rejected w h (cells c) exercise).
Proof.
  split.
  - intros w h s exercise guard. now apply start_guard_rejects.
  - intros c w h exercise Hc Hnn. apply start_guard_rejects.
    right. right. now apply reachable_holds.
Qed.

(** Scenario C: the device is not connected, the request is turned away. *)
Lemma start_rejected_before_any_effect_witness :
  connected (mounted (Some patient_1) false) = false /\
  rejected cooperative [] (mounted (Some patient_1) false) knee_extension.
Proof.
  split; [reflexivity|].
  exact (proj1 start_rejected_before_any_effect cooperative []
           (mounted (Some patient_1) false) knee_extension
           (or_introl eq_refl)).
Defined.

(** C1.  In every state the event loop can reach, whatever the order in
    which handlers and settlements take their turns, the session slot holds
    nothing or exactly one assignment together with its progress record.
    A start request leaves the slot as it was unless the device-recording
    start, the assignment status write and the progress-record creation
    have all succeeded, in that order, and then the slot holds the new
    pair; and a start request is admitted in a reachable state only when
    the slot is empty.  Turn by turn: the turn of a start request leaves
    the slot as it was (or emptied by the effect that runs after every
    turn), and a sequence it suspends awaits the device; a turn in which a
    start sequence is resumed leaves the slot as it was or empty, unless
    the call that settled is the creation of the progress record and it
    succeeded: then the sequence ends in that turn with the slot holding
    the assignment of the request and the id the creation returned.
    Every suspended start sequence stands at a stage and goes on from the
    next: from the device to the status write and from there to the
    creation on success only, to the write back on any failure. *)
Theorem single_session_slot :
  (forall c, Reachable c -> slot_consistent (cells c)) /\
  (forall w h s exercise,
     let alone := run (handleStartExercise exercise) w h s in
     slot (final_state alone) = slot s \/
     exists patient progress,
       start_admitted s patient /\
       start_outcome w h exercise = Ok tt /\
       in_progress_outcome w h patient exercise = Ok tt /\
       create_outcome w h patient exercise = Ok progress /\
       slot (final_state alone) = (Some (id exercise), Some progress) /\
       issued alone = [start_call exercise;
                       in_progress_write patient exercise;
                       create_call w h patient exercise;
                       started_notice exercise]) /\
  (forall w h s exercise patient progress,
     start_admitted s patient ->
     start_outcome w h exercise = Ok tt ->
     in_progress_outcome w h patient exercise = Ok tt ->
     create_outcome w h patient exercise = Ok progress ->
     slot (final_state (run (handleStartExercise exercise) w h s))
       = (Some (id exercise), Some progress)) /\
  (forall c patient,
     Reachable c -> start_admitted (cells c) patient ->
     slot (cells c) = (None, None)) /\
  (forall c w exercise,
     let c' := deliver (StartClicked exercise) w c in
     (slot (cells c') = slot (cells c) \/ slot (cells c') = (None, None)) /\
     (pending c' = pending c \/
      exists task,
        pending c' = pending c ++ [(StartClicked exercise, task)] /\
        at_stage exercise at_device task)) /\
  (forall c w exercise R (awaited : Call R) k before after,
     Reachable c ->
     pending c
       = before ++ (StartClicked exercise, Suspended awaited k) :: after ->
     let c' := turn c w (StartClicked exercise)
                    (k (settle awaited w (log c))) (before ++ after) in
     slot (cells c') = slot (cells c) \/
     slot (cells c') = (None, None) \/
     exists patient t progress,
       issue awaited
         = [ECreateExerciseProgress patient
              (mkProgressFields patient (exerciseId exercise)
                 (id exercise) t)] /\
       store_createExerciseProgress w (log c) = Ok progress /\
       at_stage exercise at_creation (Suspended awaited k) /\
       pending c' = before ++ after /\
       slot (cells c') = (Some (id exercise), Some progress)) /\
  (forall c w exercise R (awaited : Call R) k before after,
     Reachable c ->
     pending c
       = before ++ (StartClicked exercise, Suspended awaited k) :: after ->
     let c' := turn c w (StartClicked exercise)
                    (k (settle awaited w (log c))) (before ++ after) in
     exists stage,
       at_stage exercise stage (Suspended awaited k) /\
       (pending c' = before ++ after \/
        exists task,
          pending c'
            = (before ++ after) ++ [(StartClicked exercise, task)] /\
          at_stage exercise
            (next_stage stage awaited (settle awaited w (log c))) task)).
Proof.
  repeat apply conj.
  - intros c Hc. now destruct (reachable_coherent Hc).
  - intros w h s exercise alone. subst alone.
    destruct (start_guard_cases w h s exercise) as [(patient & Hadm) | ->];
      [|now left].
    rewrite (start_sequence_run w h exercise Hadm).
    destruct (start_outcome w h exercise) as [[]|] eqn:E1; [|now left].
    destruct (in_progress_outcome w h patient exercise) as [[]|] eqn:E2;
      [|now left].
    destruct (create_outcome w h patient exercise) as [progress|] eqn:E3;
      [|now left].
    right. exists patient, progress.
    split; [exact Hadm|]. now repeat split.
  - intros w h s exercise patient progress Hadm E1 E2 E3.
    rewrite (start_sequence_run w h exercise Hadm), E1, E2, E3.
    reflexivity.
  - intros c patient Hc (_ & _ & _ & Hempty).
    destruct (reachable_coherent Hc)
      as ([Hnone | (a & p & Hslot & Ha)] & _); [exact Hnone|].
    unfold slot in Hslot. injection Hslot as Haid _.
    now rewrite (truthy_held Haid Ha) in Hempty.
  - intros c w exercise c'. subst c'. unfold deliver. cbn [handle].
    destruct (turn_staged c w (pending c) (start_staged exercise (cells c)))
      as [(Hp & Hslot) | (task & Hp & Htask & Hslot)].
    + split; [exact Hslot | now left].
    + split; [exact Hslot|]. right. now exists task.
  - intros c w exercise R awaited k before after Hc Hp c'. subst c'.
    pose proof (reachable_staged Hc) as Htasks.
    unfold start_tasks_staged in Htasks. rewrite Hp in Htasks.
    apply Forall_app in Htasks as (_ & Ha).
    inversion Ha as [|task rest Htask _]; subst.
    cbn [fst snd] in Htask. destruct Htask as (stage & Hcall & Hk).
    destruct (turn_staged c w (before ++ after)
                (Hk (settle awaited w (log c)) (cells c)))
      as [(Hended & Hslot) | (task & _ & _ & [Hslot | Hslot])];
      [|now left | now right; left].
    destruct (next_stage stage awaited (settle awaited w (log c)))
      as [| | | progress | |] eqn:Hnext;
      try (destruct Hslot as [Hslot | Hslot]; [now left | now right; left]).
    destruct Hslot as [Hslot | Hslot]; [|now right; left].
    destruct (next_stage_filling stage awaited w (log c) Hnext)
      as (-> & _ & Hcreated).
    destruct Hcall as (patient & t & Hcall).
    right; right. exists patient, t, progress.
    split; [exact Hcall|]. split; [exact Hcreated|].
    split; [split; [now exists patient, t | exact Hk]|].
    split; [exact Hended | exact Hslot].
  - intros c w exercise R awaited k before after Hc Hp c'. subst c'.
    pose proof (reachable_staged Hc) as Htasks.
    unfold start_tasks_staged in Htasks. rewrite Hp in Htasks.
    apply Forall_app in Htasks as (_ & Ha).
    inversion Ha as [|task rest Htask _]; subst.
    cbn [fst snd] in Htask. destruct Htask as (stage & Hcall & Hk).
    exists stage. split; [now split|].
    destruct (turn_staged c w (before ++ after)
                (Hk (settle awaited w (log c)) (cells c)))
      as [(Hended & _) | (task & Hpending & Htask & _)];
      [now left | right; now exists task].
Qed.

Lemma session_running_reachable : Reachable session_running.
Proof.
  unfold session_running.
  repeat (eapply reach_turn;
          [| first [ apply settle_oldest_Turn; discriminate
                   | apply deliver_Turn; cbn; discriminate ] ]).
  apply reach_mounted.
Qed.

Lemma creation_awaited_reachable : Reachable creation_awaited.
Proof.
  unfold creation_awaited, start_suspended.
  repeat (eapply reach_turn;
          [| first [ apply settle_oldest_Turn; discriminate
                   | apply deliver_Turn; cbn; discriminate ] ]).
  apply (reach_mounted (Some patient_1) true).
Qed.

(** Scenario A, taken turn by turn through the event loop: with the
    device recording and the status written the slot is still empty; the
    turn in which the creation of the progress record settles fills it,
    and the state so reached is consistent. *)
Lemma single_session_slot_witness :
  Reachable session_running /\ slot_consistent (cells session_running) /\
  Reachable creation_awaited /\
  slot (cells creation_awaited) = (None, None) /\
  exists (awaited : Call string) k,
    pending creation_awaited
      = [(StartClicked knee_extension, Suspended awaited k)] /\
    exists patient t progress,
      issue awaited
        = [ECreateExerciseProgress patient
             (mkProgressFields patient "knee-extension" "E1" t)] /\
      store_createExerciseProgress cooperative (log creation_awaited)
        = Ok progress /\
      slot (cells (turn creation_awaited cooperative
                        (StartClicked knee_extension)
                        (k (settle awaited cooperative
                                   (log creation_awaited))) []))
        = (Some "E1", Some progress).
Proof.
  split; [exact session_running_reachable|].
  split; [exact (proj1 single_session_slot session_running
                   session_running_reachable)|].
  split; [exact creation_awaited_reachable|].
  split; [reflexivity|].
  eexists _, _. split; [reflexivity|].
  destruct (proj1 (proj2 (proj2 (proj2 (proj2 (proj2
              single_session_slot)))))
              creation_awaited cooperative knee_extension string _ _
              [] [] creation_awaited_reachable eq_refl)
    as [Hkept | [Hempty | (patient & t & progress & Hcall & Hcreated & _
                           & _ & Hfilled)]].
  - vm_compute in Hkept. discriminate.
  - vm_compute in Hempty. discriminate.
  - exists patient, t, progress. repeat split; assumption.
Defined.

(** C10.  A start sequence and a stop sequence both end with the busy flag
    [sessionLoading] down, whatever the outcome of their steps, and neither
    lets an exception escape.  In the event loop, whatever else has taken
    its turn in between, the turn in which a start or stop sequence ends
    leaves the flag down; and in every reachable state the flag is down
    unless a start or stop sequence is still suspended at an [await]: no
    finished request leaves it up. *)
Theorem busy_flag_always_reset :
  (forall w h s exercise patient,
     start_admitted s patient ->
     let alone := run (handleStartExercise exercise) w h s in
     settlement alone = Ok tt /\ sessionLoading (final_state alone) = false) /\
  (forall w h s patient active,
     signed_in s patient -> holds s active ->
     let alone := run handleCompleteExercise w h s in
     settlement alone = Ok tt /\ sessionLoading (final_state alone) = false) /\
  (forall c w origin R (awaited : Call R) k before after,
     Reachable c ->
     pending c = before ++ (origin, Suspended awaited k) :: after ->
     is_session_request origin = true ->
     let c' := turn c w origin (k (settle awaited w (log c)))
                    (before ++ after) in
     pending c' = before ++ after ->
     sessionLoading (cells c') = false) /\
  (forall c,
     Reachable c -> in_flight c = false ->
     sessionLoading (cells c) = false).
Proof.
  repeat apply conj.
  - intros w h s exercise patient Hadm alone. subst alone.
    rewrite (start_sequence_run w h exercise Hadm).
    destruct Hadm as (_ & _ & Hl & _).
    destruct (start_outcome w h exercise) as [[]|]; [|now split].
    destruct (in_progress_outcome w h patient exercise) as [[]|];
      [|now split].
    destruct (create_outcome w h patient exercise); [|now split].
    split; [reflexivity | destruct s; exact Hl].
  - intros w h s patient active Hp Ha alone. subst alone.
    rewrite (stop_sequence_run w h Hp Ha).
    split; [reflexivity | destruct s; reflexivity].
  - intros c w origin R awaited k before after Hc Hp Horigin c' Hended.
    subst c'.
    pose proof (sequence_ends w (reachable_coherent Hc) Hp Hended) as Hend.
    destruct origin; try discriminate; [exact Hend | exact (proj2 Hend)].
  - intros c Hc Hquiet.
    destruct (reachable_coherent Hc) as (_ & _ & Hflag).
    destruct (sessionLoading (cells c)); [|reflexivity].
    rewrite Hflag in Hquiet by reflexivity. discriminate.
Qed.

(** With the device refusing to record, the flag is down after the start
    sequence. *)
Lemma busy_flag_always_reset_witness :
  start_admitted ready "patient-1" /\
  sessionLoading
    (final_state (run (handleStartExercise knee_extension) device_fails []
                    ready))
    = false.
Proof.
  assert (A : start_admitted ready "patient-1").
  { repeat split. discriminate. }
  split; [exact A|].
  exact (proj2 (proj1 busy_flag_always_reset
                  device_fails [] ready knee_extension "patient-1" A)).
Defined.

(** C4, as stated, fails: when the device refuses to record, a store write
    is still issued, the one that puts the assignment's status back. *)
Lemma start_device_failure_still_writes :
  start_admitted ready "patient-1" /\
  start_outcome device_fails [] knee_extension
    = Throw (an_Error "Device unreachable") /\
  filter is_store_write
    (issued (run (handleStartExercise knee_extension) device_fails [] ready))
    = [EUpdateAssignedExercise "patient-1" "E1"
         (mkAssignedPatch assigned None)].
Proof.
  split; [|split; reflexivity].
  repeat split. discriminate.
Qed.

(** C4, amended.  When the device-recording start of an admitted start
    request fails, the handler logs the error, tells the device to stop
    recording, issues one best-effort write that sets the assignment's
    status to its pre-start value, and shows a notice; neither the
    [in_progress] write nor the progress-record creation is issued, no
    exception escapes, and the state (slot and busy flag included) is the
    state before the request. *)
Theorem start_device_failure
    (w : World) (h : list Event) (s : State) (exercise : AssignedExercise)
    (patient : string) (error : JsError) :
  start_admitted s patient ->
  start_outcome w h exercise = Throw error ->
  let alone := run (handleStartExercise exercise) w h s in
  settlement alone = Ok tt /\
  final_state alone = s /\
  issued alone =
    start_call exercise
      :: start_failure w h patient exercise [start_call exercise] error /\
  filter is_store_write (issued alone) = [revert_write patient exercise] /\
  filter is_device_command (issued alone)
    = [start_call exercise; EStopRecording].
Proof.
  intros Hadm Hfail alone. subst alone.
  rewrite (start_sequence_run w h exercise Hadm), Hfail.
  unfold_run. cbn [fst snd].
  repeat split; unfold start_failure;
    destruct (store_updateAssignedExercise w _); reflexivity.
Qed.

Lemma start_device_failure_witness :
  start_admitted ready "patient-1" /\
  final_state (run (handleStartExercise knee_extension) device_fails [] ready)
    = ready.
Proof.
  assert (A : start_admitted ready "patient-1").
  { repeat split. discriminate. }
  split; [exact A|].
  exact (proj1 (proj2 (@start_device_failure device_fails [] ready
                         knee_extension "patient-1"
                         (an_Error "Device unreachable") A eq_refl))).
Defined.

(* ================================================================== *)
(** * Stop requests *)
(* ================================================================== *)

(** C3, as stated, fails: with a session active and a progress id in the
    slot, a failing assignment write ends the sequence before the
    progress-record write. *)
Lemma complete_skips_progress_write :
  signed_in in_session "patient-1" /\
  holds in_session "E1" /\
  progress_record in_session = Some "P1" /\
  completed_outcome assignment_writes_fail [] "patient-1" "E1"
    = Throw (an_Error "permission-denied") /\
  existsb is_progress_write
    (issued (run handleCompleteExercise assignment_writes_fail [] in_session))
    = false.
Proof.
  repeat split; discriminate.
Qed.

(** C3, amended.  A stop request made while a session is active first
    tells the device to stop recording and then writes [status =
    completed], [completedAt = now] to the active assignment, whatever the
    outcome of either.  The progress record is written ([status =
    completed], [sessionEndTime] and [completedAt] set to the same instant)
    exactly when the assignment write has succeeded and a progress id
    exists; a failed assignment write ends the sequence with the error
    notice, without the progress-record write. *)
Theorem complete_steps
    (w : World) (h : list Event) (s : State) (patient active : string) :
  signed_in s patient -> holds s active ->
  let alone := run handleCompleteExercise w h s in
  let first_two := [EStopRecording; completed_write w h patient active] in
  (exists rest, issued alone = first_two ++ rest) /\
  (forall progress,
     completed_outcome w h patient active = Ok tt ->
     progress_record s = Some progress ->
     exists rest,
       issued alone
         = first_two ++ progress_write w h patient progress :: rest /\
       existsb is_progress_write rest = false) /\
  (forall error,
     completed_outcome w h patient active = Throw error ->
     issued alone = first_two ++ stop_failure error) /\
  (completed_outcome w h patient active = Ok tt ->
   progress_record s = None ->
   issued alone = first_two ++ stop_success s).
Proof.
  intros Hp Ha alone first_two. subst alone first_two.
  rewrite (stop_sequence_run w h Hp Ha). unfold_run. cbn [fst snd app].
  repeat split.
  - eexists. reflexivity.
  - intros progress -> ->.
    destruct (progress_outcome w h patient active progress);
      eexists; split; reflexivity.
  - intros error ->. reflexivity.
  - intros -> ->. reflexivity.
Qed.

Lemma complete_steps_witness :
  signed_in in_session "patient-1" /\ holds in_session "E1" /\
  issued (run handleCompleteExercise assignment_writes_fail [] in_session)
    = [EStopRecording;
       completed_write assignment_writes_fail [] "patient-1" "E1"]
      ++ stop_failure (an_Error "permission-denied").
Proof.
  assert (P : signed_in in_session "patient-1")
    by (split; [reflexivity | discriminate]).
  assert (A : holds in_session "E1") by (split; [reflexivity | discriminate]).
  split; [exact P|]. split; [exact A|].
  exact (proj1 (proj2 (proj2
           (@complete_steps assignment_writes_fail [] in_session
              "patient-1" "E1" P A)))
           (an_Error "permission-denied") eq_refl).
Defined.

(** C5.  A stop sequence always ends with the session slot empty and the
    busy flag down, whatever the outcome of the assignment write and of the
    progress-record write, and lets no exception escape; with the device
    connected, the next start request is admitted and reaches the device.
    In the event loop, whatever else has taken its turn in between, the
    turn in which a stop sequence ends leaves the slot empty and the flag
    down. *)
Theorem complete_always_clears_slot :
  (forall w h s patient active,
     signed_in s patient -> holds s active ->
     let alone := run handleCompleteExercise w h s in
     settlement alone = Ok tt /\
     final_state alone = idle s /\
     slot (final_state alone) = (None, None) /\
     sessionLoading (final_state alone) = false /\
     (connected s = true ->
      start_admitted (final_state alone) patient /\
      forall w' h' exercise,
        exists rest,
          issued (run (handleStartExercise exercise) w' h'
                      (final_state alone))
            = start_call exercise :: rest)) /\
  (forall c w R (awaited : Call R) k before after,
     Reachable c ->
     pending c = before ++ (StopClicked, Suspended awaited k) :: after ->
     let c' := turn c w StopClicked (k (settle awaited w (log c)))
                    (before ++ after) in
     pending c' = before ++ after ->
     slot (cells c') = (None, None) /\
     sessionLoading (cells c') = false).
Proof.
  split.
  - intros w h s patient active Hp Ha alone. subst alone.
    rewrite (stop_sequence_run w h Hp Ha). unfold_run. cbn [fst snd].
    split; [reflexivity|]. split; [reflexivity|].
    split; [destruct s; reflexivity|]. split; [destruct s; reflexivity|].
    intros Hc.
    assert (Hadm : start_admitted (idle s) patient).
    { destruct Hp as (Hu & Hne). destruct s; cbn in *.
      repeat split; auto. }
    split; [exact Hadm|].
    intros w' h' exercise.
    rewrite (start_sequence_run w' h' exercise Hadm).
    destruct (start_outcome w' h' exercise) as [[]|];
      [|eexists; reflexivity].
    destruct (in_progress_outcome w' h' patient exercise) as [[]|];
      [|eexists; reflexivity].
    destruct (create_outcome w' h' patient exercise);
      eexists; reflexivity.
  - intros c w R awaited k before after Hc Hp c' Hended. subst c'.
    exact (sequence_ends w (reachable_coherent Hc) Hp Hended).
Qed.

Lemma complete_always_clears_slot_witness :
  signed_in in_session "patient-1" /\ holds in_session "E1" /\
  slot (final_state
          (run handleCompleteExercise assignment_writes_fail [] in_session))
    = (None, None).
Proof.
  assert (P : signed_in in_session "patient-1")
    by (split; [reflexivity | discriminate]).
  assert (A : holds in_session "E1") by (split; [reflexivity | discriminate]).
  split; [exact P|]. split; [exact A|].
  exact (proj1 (proj2 (proj2
           (proj1 complete_always_clears_slot assignment_writes_fail []
              in_session "patient-1" "E1" P A)))).
Defined.

(* ================================================================== *)
(** * Reconciliation *)
(* ================================================================== *)

(** C6.  When the slot holds an assignment and the store reports that
    assignment as completed, the reconciliation effect tells the device to
    stop recording and empties the slot; it issues nothing else, in
    particular no store write, and changes no other cell of the state.  The
    same holds for the whole turn of the store update that brings the
    report, which besides stores the new list and suspends or resumes no
    handler. *)
Theorem forced_idle_on_remote_completion :
  (forall w h s active,
     reported_completed s active ->
     let alone := run reconcileEffect w h s in
     settlement alone = Ok tt /\
     issued alone = [EStopRecording] /\
     filter is_store_write (issued alone) = [] /\
     slot (final_state alone) = (None, None) /\
     final_state alone = slot_cleared s /\
     userProfile (final_state alone) = userProfile s /\
     connected (final_state alone) = connected s /\
     assignedExercises (final_state alone) = assignedExercises s /\
     recommendations (final_state alone) = recommendations s /\
     loadingExercises (final_state alone) = loadingExercises s /\
     loadingRecommendations (final_state alone) = loadingRecommendations s /\
     sessionLoading (final_state alone) = sessionLoading s) /\
  (forall c w active profile exercises activeExercise,
     userProfile (cells c) = Some profile ->
     holds (cells c) active ->
     find (fun ex => String.eqb (id ex) active) exercises
       = Some activeExercise ->
     status activeExercise = completed ->
     let c' := deliver (AssignedSnapshot exercises) w c in
     cells c'
       = slot_cleared
           (with_loadingExercises false
              (with_assignedExercises exercises (cells c))) /\
     log c' = log c ++ [EStopRecording] /\
     pending c' = pending c).
Proof.
  split.
  - intros w h s active Hrep alone. subst alone.
    destruct (reconcile_run w h s) as [(a & _ & ->) | (Hnot & _)].
    + unfold_run. cbn [fst snd]. destruct s. now repeat split.
    + now destruct (Hnot active).
  - intros c w active profile exercises ex Hp (Ha & Hne) Hfind Hst c'.
    subst c'. rewrite (snapshot_turn c w exercises Hp). cbn zeta.
    set (stored := with_loadingExercises false
                     (with_assignedExercises exercises (cells c))).
    assert (Hrep : reported_completed stored active).
    { split; [split; [destruct (cells c); exact Ha | exact Hne]|].
      exists ex. split; [destruct (cells c); exact Hfind | exact Hst]. }
    destruct (reconcile_render w (log c) [] stored)
      as [(a & _ & ->) | (Hnot & _)].
    + now repeat split.
    + now destruct (Hnot active).
Qed.

(** Scenario D: the slot holds (E1, P1), the store reports E1 completed. *)
Lemma forced_idle_on_remote_completion_witness :
  reported_completed
    (with_assignedExercises [knee_extension_done] in_session) "E1" /\
  issued (run reconcileEffect cooperative []
            (with_assignedExercises [knee_extension_done] in_session))
    = [EStopRecording].
Proof.
  assert (R : reported_completed
                (with_assignedExercises [knee_extension_done] in_session)
                "E1").
  { split; [split; [reflexivity | discriminate]|].
    exists knee_extension_done. split; reflexivity. }
  split; [exact R|].
  exact (proj1 (proj2 (proj1 forced_idle_on_remote_completion
                         cooperative [] _ "E1" R))).
Defined.



(* ================================================================== *)
(** * Recommendations and the webhook forwarder *)
(* ================================================================== *)

(** C8.  A run of the recommendation fetcher never lets an exception
    escape.  If the request fails, the response is not a success, or the
    body is not JSON, the recommendation list stays as it was.  On a
    successful JSON answer the list becomes the array under
    [recommendations] if the body holds one; else the body itself as a
    one-element list if it is a recommendation-shaped object; else it
    stays as it was.  (A fetcher created while no profile was present
    returns at once.) *)
Theorem fetcher_tolerates_bad_answers
    (w : World) (h : list Event) (s : State) (profile : UserProfile) :
  let alone := run (fetchNetworkRecommendation (Some profile)) w h s in
  let answer := net_fetch w (h ++ [advisory_request profile]) in
  run (fetchNetworkRecommendation None) w h s = (Ok tt, s, []) /\
  settlement alone = Ok tt /\
  (forall error,
     answer = Throw error ->
     recommendations (final_state alone) = recommendations s) /\
  (forall response,
     answer = Ok response ->
     (r_ok response = false ->
      recommendations (final_state alone) = recommendations s) /\
     (forall error,
        parsed_body (JSON_parse w) response = Throw error ->
        recommendations (final_state alone) = recommendations s) /\
     (forall data,
        r_ok response = true ->
        parsed_body (JSON_parse w) response = Ok data ->
        recommendations (final_state alone)
          = normalized data (recommendations s) /\
        (forall items,
           prop "recommendations" data = Some (JArr items) ->
           recommendations (final_state alone) = items) /\
        (isArray (prop "recommendations" data) = false ->
         recommendation_shaped data = true ->
         recommendations (final_state alone) = [data]) /\
        (isArray (prop "recommendations" data) = false ->
         recommendation_shaped data = false ->
         recommendations (final_state alone) = recommendations s))).
Proof.
  intros alone answer. subst alone answer.
  split; [reflexivity|].
  rewrite (fetch_run w h s profile). unfold fetch_failed.
  destruct (net_fetch w _) as [response|e].
  2:{ split; [reflexivity|]. split; [|discriminate].
      intros _ _. destruct s; reflexivity. }
  split.
  { destruct (r_ok response); [|reflexivity].
    now destruct (parsed_body (JSON_parse w) response). }
  split; [discriminate|].
  intros response' [= <-]. repeat apply conj.
  - intros ->. destruct s; reflexivity.
  - intros error ->. destruct (r_ok response); destruct s; reflexivity.
  - intros data -> ->.
    assert (Hrec : recommendations
                     (final_state
                        (Ok tt,
                         with_loadingRecommendations false
                           (with_recommendations
                              (normalized data (recommendations s)) s),
                         [advisory_request profile]))
                   = normalized data (recommendations s))
      by (destruct s; reflexivity).
    rewrite Hrec. unfold normalized. repeat apply conj.
    + reflexivity.
    + intros items ->. reflexivity.
    + intros Harr ->.
      now destruct (prop "recommendations" data) as [[| | | | |]|].
    + intros Harr ->.
      now destruct (prop "recommendations" data) as [[| | | | |]|].
Qed.

(** The advisory endpoint answers with one bare recommendation: the list
    becomes that object alone. *)
Lemma fetcher_tolerates_bad_answers_witness :
  recommendations
    (final_state
       (run (fetchNetworkRecommendation (Some patient_1))
            advises_single [] ready))
    = [JObj [("recommendedExercise", JStr "Heel Slides")]].
Proof.
  destruct (@fetcher_tolerates_bad_answers advises_single [] ready
              patient_1) as (_ & _ & _ & answered).
  destruct (answered _ eq_refl) as (_ & _ & parsed).
  destruct (parsed _ eq_refl eq_refl) as (_ & _ & single & _).
  exact (single eq_refl eq_refl).
Defined.

(** C9.  The webhook forwarder never lets an exception escape.  To an
    upstream response whose body can be read it answers with the
    upstream's status code and the object [{status, ok, data}], [status]
    and [ok] being those of the upstream response and [data] the parsed
    body, or [{raw: text}] when the body is not JSON.  When the upstream
    cannot be reached or its body cannot be read, it answers with the
    object [{error, details}].  In particular, to the plain text
    [Internal Server Error] with status 500 it answers
    [{status: 500, ok: false, data: {raw: "Internal Server Error"}}],
    whatever [JSON.parse] the runtime has, as long as it follows the JSON
    grammar. *)
Theorem forwarder_contract
    (w : ServerWorld) (h : list ServerEvent) (req_body : json) :
  let alone := run (forwarder req_body) w h tt in
  let upstream := node_fetch w (h ++ [SFetch n8n_url req_body]) in
  settlement alone = Ok tt /\
  (forall response text,
     upstream = Ok response -> r_text response = Ok text ->
     exists data,
       issued alone
         = [SFetch n8n_url req_body;
            SSend (r_status response)
              (JObj [("status", JInt (r_status response));
                     ("ok", JBool (r_ok response));
                     ("data", data)])] /\
       (forall parsed, node_JSON_parse w text = Ok parsed -> data = parsed) /\
       (forall error,
          node_JSON_parse w text = Throw error ->
          data = JObj [("raw", JStr text)])) /\
  (forall error,
     upstream = Throw error \/
     (exists response,
        upstream = Ok response /\ r_text response = Throw error) ->
     issued alone
       = [SFetch n8n_url req_body;
          SConsoleError "❌ Error forwarding to n8n:" error;
          SSend 500 (JObj (("error", JStr "Failed to reach n8n webhook")
                           :: details error))]) /\
  (grammatical (node_JSON_parse w) ->
   forall response,
     upstream = Ok response ->
     r_status response = 500 -> r_ok response = false ->
     r_text response = Ok "Internal Server Error" ->
     issued alone
       = [SFetch n8n_url req_body;
          SSend 500
            (JObj [("status", JInt 500);
                   ("ok", JBool false);
                   ("data", JObj [("raw", JStr "Internal Server Error")])])]).
Proof.
  intros alone upstream. subst alone upstream.
  rewrite forwarder_run. unfold_run. cbn [fst snd].
  split; [reflexivity|]. repeat apply conj.
  - intros response text -> ->.
    exists (tolerant_parse (node_JSON_parse w) text).
    split; [reflexivity|]. unfold tolerant_parse.
    split; [intros parsed -> | intros error ->]; reflexivity.
  - intros error [-> | (response & -> & ->)]; reflexivity.
  - intros Hgrammar response -> Hstatus Hok ->.
    unfold relayed, tolerant_parse. rewrite Hstatus, Hok.
    destruct (node_JSON_parse w "Internal Server Error") as [data|] eqn:Hparse;
      [|reflexivity].
    apply Hgrammar in Hparse. discriminate Hparse.
Qed.

(** Scenario E. *)
Lemma forwarder_contract_witness :
  grammatical (node_JSON_parse upstream_down) /\
  issued (run (forwarder (JObj [])) upstream_down [] tt)
    = [SFetch n8n_url (JObj []);
       SSend 500
         (JObj [("status", JInt 500);
                ("ok", JBool false);
                ("data", JObj [("raw", JStr "Internal Server Error")])])].
Proof.
  assert (G : grammatical (node_JSON_parse upstream_down)).
  { apply table_parse_grammatical. reflexivity. }
  split; [exact G|].
  exact (proj2 (proj2 (proj2 (forwarder_contract upstream_down [] (JObj []))))
           G _ eq_refl eq_refl eq_refl eq_refl).
Defined.

(* ================================================================== *)
(** * The scenarios of the design, run *)
(* ================================================================== *)

(** Scenario A: device connected, slot empty, start of Knee Extension. *)
Example scenario_A :
  run (handleStartExercise knee_extension) cooperative [] ready =
    (Ok tt,
     mkState (Some patient_1) true [] [] true true false
             (Some "E1") (Some "P1"),
     [EStartRecording "knee-extension";
      EUpdateAssignedExercise "patient-1" "E1"
        (mkAssignedPatch in_progress None);
      ECreateExerciseProgress "patient-1"
        (mkProgressFields "patient-1" "knee-extension" "E1" 1002);
      EToast "Exercise started" "Knee Extension session has begun." false]).
Proof. reflexivity. Qed.

(** Scenario A through the event loop: while the request waits for the
    device, the busy flag is up and the slot still empty. *)
Example scenario_A_suspended :
  cells start_suspended =
    mkState (Some patient_1) true [] [] true true true None None /\
  log start_suspended = [EStartRecording "knee-extension"] /\
  in_flight start_suspended = true.
Proof. repeat split. Qed.

(** A second request made meanwhile is turned away. *)
Example scenario_A_second_request :
  run (handleStartExercise knee_extension) cooperative
      (log start_suspended) (cells start_suspended) =
    (Ok tt, cells start_suspended,
     [EToast "Session already in progress"
             "Finish the current exercise before starting another."
             false]).
Proof. reflexivity. Qed.

(** After the three settlements the event loop is where the request run
    alone ends. *)
Example scenario_A_settled :
  cells session_running = in_session /\
  log session_running =
    issued (run (handleStartExercise knee_extension) cooperative [] ready) /\
  pending session_running = [].
Proof. repeat split. Qed.

(** Scenario B: from scenario A, stop. *)
Example scenario_B :
  run handleCompleteExercise cooperative [] in_session =
    (Ok tt, ready,
     [EStopRecording;
      EUpdateAssignedExercise "patient-1" "E1"
        (mkAssignedPatch completed (Some 1001));
      EUpdateExerciseProgress "patient-1" "P1"
        (mkProgressPatch completed 1001 1001);
      EToast "Exercise completed"
             "Great job! Exercise has been marked complete." false;
      ESetTimeout 2000 (Some patient_1)]).
Proof. reflexivity. Qed.

(** Scenario B through the event loop: suspended at the assignment
    write, the slot is still held and the busy flag up; after the two
    settlements the component is idle again. *)
Example scenario_B_turns :
  slot (cells stop_suspended) = (Some "E1", Some "P1") /\
  sessionLoading (cells stop_suspended) = true /\
  cells session_stopped = ready /\
  pending session_stopped = [].
Proof. repeat split. Qed.

(** Scenario C: device disconnected, start requested. *)
Example scenario_C :
  run (handleStartExercise knee_extension) cooperative []
      (mounted (Some patient_1) false) =
    (Ok tt, mounted (Some patient_1) false,
     [EToast "Device not connected"
             "Connect your hardware device before starting the session."
             true]).
Proof. reflexivity. Qed.

(** Scenario D: the store reports the running exercise completed. *)
Example scenario_D :
  deliver (AssignedSnapshot [knee_extension_done]) cooperative
          session_running =
    mkConfig
      (mkState (Some patient_1) true [knee_extension_done] [] false true
               false None None)
      (log session_running ++ [EStopRecording])
      [].
Proof. reflexivity. Qed.

(** Scenario E, the fetcher's side: the advisory endpoint answers 500 with
    a plain text; the recommendation list stays as it was. *)
Example scenario_E_fetcher :
  run (fetchNetworkRecommendation (Some patient_1)) advisory_down []
      (with_recommendations [JStr "kept"] ready) =
    (Ok tt,
     with_loadingRecommendations false
       (with_recommendations [JStr "kept"] ready),
     [advisory_request patient_1;
      EConsoleError "Failed to fetch n8n response" None]).
Proof. reflexivity. Qed.

(* ================================================================== *)
(** * Further properties of the session handlers *)
(* ================================================================== *)

Lemma signed_in_unique (s : State) (p q : string) :
  signed_in s p -> signed_in s q -> p = q.
Proof. intros [Hp _] [Hq _]. congruence. Qed.

Lemma holds_unique (s : State) (a b : string) :
  holds s a -> holds s b -> a = b.
Proof. intros [Ha _] [Hb _]. congruence. Qed.

Lemma or_default_worded (o : option string) (d : string) :
  d <> "" -> or_default o d <> "".
Proof.
  intros Hd. destruct o as [m|]; cbn; [|exact Hd].
  destruct (truthy_string m) eqn:E; [|exact Hd].
  now apply truthy_string_inv.
Qed.

Lemma append_worded (a b : string) : b <> "" -> (a ++ b)%string <> "".
Proof.
  intros Hb. destruct a; cbn; [exact Hb | discriminate].
Qed.

(** X1.  A stop request acts exactly when a patient is signed in and the
    slot holds an assignment: then the device is told to stop; otherwise
    nothing is issued and no cell changes.  Neither the busy flag nor the
    connection is consulted. *)
Theorem stop_acts_exactly_on_a_held_session
    (w : World) (h : list Event) (s : State) :
  ((exists patient active, signed_in s patient /\ holds s active) <->
   In EStopRecording (issued (run handleCompleteExercise w h s))) /\
  (~ (exists patient active, signed_in s patient /\ holds s active) ->
   run handleCompleteExercise w h s = (Ok tt, s, [])).
Proof.
  destruct (stop_guard_cases w h s) as [(patient & active & Hp & Ha) | Hrun].
  - split.
    + split; [intros _ | intros _; now exists patient, active].
      rewrite (stop_sequence_run w h Hp Ha). now left.
    + intros Hno. exfalso. apply Hno. now exists patient, active.
  - split; [|intros _; exact Hrun].
    rewrite Hrun. split; [|intros []].
    intros (patient & active & Hp & Ha).
    rewrite (stop_sequence_run w h Hp Ha) in Hrun. discriminate.
Qed.

(** X2.  A session started and then stopped leaves every cell of the
    component as it was before the start, whatever becomes of the writes
    of the stop. *)
Theorem session_round_trip
    (w w' : World) (h h' : list Event) (s : State)
    (exercise : AssignedExercise) (patient progress : string) :
  start_admitted s patient ->
  slot s = (None, None) ->
  id exercise <> "" ->
  start_outcome w h exercise = Ok tt ->
  in_progress_outcome w h patient exercise = Ok tt ->
  create_outcome w h patient exercise = Ok progress ->
  final_state
    (run handleCompleteExercise w' h'
       (final_state (run (handleStartExercise exercise) w h s))) = s.
Proof.
  intros Hadm Hslot Hid H1 H2 H3.
  rewrite (start_sequence_run w h exercise Hadm), H1, H2, H3.
  unfold_run. cbn [fst snd].
  assert (Hp : signed_in (started exercise progress s) patient).
  { destruct Hadm as ((Hu & Hne) & _). split; [|exact Hne].
    destruct s; exact Hu. }
  assert (Ha : holds (started exercise progress s) (id exercise)).
  { split; [destruct s; reflexivity | exact Hid]. }
  rewrite (stop_sequence_run w' h' Hp Ha). cbn [fst snd].
  destruct Hadm as (_ & _ & Hflag & _).
  destruct s; cbn in *. injection Hslot as -> ->. now subst.
Qed.

Lemma session_round_trip_witness :
  start_admitted ready "patient-1" /\
  final_state
    (run handleCompleteExercise assignment_writes_fail []
       (final_state (run (handleStartExercise knee_extension)
                         cooperative [] ready))) = ready.
Proof.
  assert (Hadm : start_admitted ready "patient-1").
  { repeat split. discriminate. }
  split; [exact Hadm|].
  apply (@session_round_trip cooperative assignment_writes_fail [] [] ready
           knee_extension "patient-1" "P1" Hadm);
    [reflexivity | discriminate | reflexivity | reflexivity | reflexivity].
Defined.

Ltac each_event :=
  repeat (first [ apply Forall_nil
                | apply Forall_cons
                | progress cbn
                | split
                | reflexivity
                | assumption
                | discriminate ]).

(** X3.  The store writes of a start sequence go to the records of the
    signed-in patient and concern the assignment the request names; those
    of a stop sequence go to the records of the signed-in patient and
    concern the assignment and the progress record held in the slot. *)
Theorem session_writes_are_addressed
    (w : World) (h : list Event) (s : State) (patient : string) :
  signed_in s patient ->
  (forall exercise,
     let alone := run (handleStartExercise exercise) w h s in
     Forall (for_patient patient) (issued alone) /\
     Forall (for_assignment (id exercise)) (issued alone)) /\
  (forall active,
     holds s active ->
     let alone := run handleCompleteExercise w h s in
     Forall (for_patient patient) (issued alone) /\
     Forall (for_assignment active) (issued alone) /\
     Forall (for_progress (activeProgressId s)) (issued alone)).
Proof.
  intros Hp. split.
  - intros exercise alone. subst alone.
    destruct (start_guard_cases w h s exercise) as [(q & Hadm) | Hrun].
    + assert (q = patient) as -> by exact (signed_in_unique (proj1 Hadm) Hp).
      rewrite (start_sequence_run w h exercise Hadm).
      unfold start_failure.
      destruct (start_outcome w h exercise);
        [destruct (in_progress_outcome w h patient exercise);
           [destruct (create_outcome w h patient exercise)|]|];
        cbn;
        repeat match goal with
               | |- context [store_updateAssignedExercise ?w' ?h'] =>
                   destruct (store_updateAssignedExercise w' h')
               end;
        split; each_event.
    + rewrite Hrun. unfold rejection_notice.
      destruct (profile_uid s) as [u|]; [|split; each_event].
      destruct (truthy_string u); [|split; each_event].
      destruct (connected s); split; each_event.
  - intros active Ha alone. subst alone.
    rewrite (stop_sequence_run w h Hp Ha).
    unfold stop_failure, stop_success, progress_record.
    destruct (completed_outcome w h patient active);
      [|repeat split; each_event].
    destruct (activeProgressId s) as [progress|];
      [|repeat split; each_event].
    destruct (truthy_string progress); [|repeat split; each_event].
    destruct (progress_outcome w h patient active progress);
      repeat split; each_event.
Qed.

Lemma session_writes_are_addressed_witness :
  signed_in in_session "patient-1" /\
  Forall (for_progress (Some "P1"))
    (issued (run handleCompleteExercise cooperative [] in_session)).
Proof.
  assert (Hp : signed_in in_session "patient-1").
  { split; [reflexivity | discriminate]. }
  assert (Ha : holds in_session "E1").
  { split; [reflexivity | discriminate]. }
  split; [exact Hp|].
  exact (proj2 (proj2
    (proj2 (@session_writes_are_addressed cooperative [] in_session
              "patient-1" Hp) "E1" Ha))).
Defined.

(** X4.  A start sequence whose write of the status or whose creation of
    the progress record fails leaves every cell as it was, tells the
    device to stop, writes back the status the exercise had when the
    request was made, and ends with the notice of the failure; a failure
    of the write back is logged and changes nothing else. *)
Theorem start_store_failure
    (w : World) (h : list Event) (s : State) (exercise : AssignedExercise)
    (patient : string) (error : JsError) :
  start_admitted s patient ->
  start_outcome w h exercise = Ok tt ->
  in_progress_outcome w h patient exercise = Throw error \/
  (in_progress_outcome w h patient exercise = Ok tt /\
   create_outcome w h patient exercise = Throw error) ->
  let alone := run (handleStartExercise exercise) w h s in
  settlement alone = Ok tt /\
  final_state alone = s /\
  filter is_device_command (issued alone)
    = [start_call exercise; EStopRecording] /\
  filter is_store_write (issued alone)
    = in_progress_write patient exercise
        :: match in_progress_outcome w h patient exercise with
           | Ok _ => [create_call w h patient exercise]
           | Throw _ => []
           end
        ++ [revert_write patient exercise] /\
  last (issued alone) EStopRecording
    = EToast "Could not start session"
             (or_default (message error) "Please try again.") true.
Proof.
  intros Hadm H1 Hfail alone. subst alone.
  rewrite (start_sequence_run w h exercise Hadm), H1.
  unfold start_failure.
  destruct Hfail as [H2 | [H2 H3]]; rewrite H2; [|rewrite H3]; cbn;
    repeat match goal with
           | |- context [store_updateAssignedExercise ?w' ?h'] =>
               destruct (store_updateAssignedExercise w' h')
           end;
    repeat split.
Qed.

Lemma start_store_failure_witness :
  start_admitted ready "patient-1" /\
  filter is_store_write
    (issued (run (handleStartExercise knee_extension)
                 assignment_writes_fail [] ready))
    = [in_progress_write "patient-1" knee_extension;
       revert_write "patient-1" knee_extension].
Proof.
  assert (Hadm : start_admitted ready "patient-1").
  { repeat split. discriminate. }
  split; [exact Hadm|].
  exact (proj1 (proj2 (proj2 (proj2
    (@start_store_failure assignment_writes_fail [] ready knee_extension
       "patient-1" (an_Error "permission-denied") Hadm eq_refl
       (or_introl eq_refl)))))).
Defined.

(** How the run of a handler ends, by the message it serves. *)
Ltac by_message m w h s :=
  destruct m as [profile | is_connected | exercises | docs | captured
                | exercise | ]; cbn [handle];
  [ cbn
  | cbn
  | unfold whenProfile, run; cbn; destruct (userProfile s); cbn
  | unfold whenProfile, run; cbn; destruct (userProfile s); cbn
  | destruct captured as [profile|];
    [ rewrite fetch_run; unfold fetch_failed;
      destruct (net_fetch w (h ++ [advisory_request profile]))
        as [response|];
      [ destruct (r_ok response);
        [ destruct (parsed_body (JSON_parse w) response) |] |]
    | cbn ]
  | destruct (start_guard_cases w h s exercise) as [(patient & Hadm) | Hrun];
    [ rewrite (start_sequence_run w h exercise Hadm); unfold start_failure;
      destruct (start_outcome w h exercise);
      [ destruct (in_progress_outcome w h patient exercise);
        [ destruct (create_outcome w h patient exercise) |] |];
      cbn;
      repeat match goal with
             | |- context [store_updateAssignedExercise ?w' ?h'] =>
                 destruct (store_updateAssignedExercise w' h')
             end
    | rewrite Hrun; unfold rejection_notice;
      destruct (profile_uid s) as [u|];
      [ destruct (truthy_string u); [destruct (connected s) |] |] ]
  | destruct (stop_guard_cases w h s) as [(patient & active & Hp & Ha) | Hrun];
    [ rewrite (stop_sequence_run w h Hp Ha);
      unfold stop_failure, stop_success, progress_record;
      destruct (completed_outcome w h patient active);
      [ destruct (activeProgressId s) as [progress|];
        [ destruct (truthy_string progress);
          [ destruct (progress_outcome w h patient active progress) |] |] |]
    | rewrite Hrun ] ].

(** X5.  Every notice shown by a handler has a title and a description,
    also when the error it reports has no message or an empty one. *)
Theorem notices_are_worded
    (m : Msg) (w : World) (h : list Event) (s : State) :
  Forall worded (issued (run (handle m) w h s)).
Proof.
  by_message m w h s; each_event;
    try (apply or_default_worded; discriminate);
    try (apply append_worded; discriminate).
Qed.

(** X6.  No handler and no effect of the component lets an error escape:
    whatever the device, the store and the network answer, in whatever
    state, each of them returns normally. *)
Theorem no_handler_throws
    (m : Msg) (w : World) (h : list Event) (s : State) :
  settlement (run (handle m) w h s) = Ok tt /\
  settlement (run reconcileEffect w h s) = Ok tt.
Proof.
  split.
  - by_message m w h s; reflexivity.
  - destruct (reconcile_run w h s) as [(a & _ & ->) | (_ & ->)]; reflexivity.
Qed.

(** X7.  The fetcher touches no cell but the recommendation list and its
    loading flag, commands no device and writes to no store.  Run for a
    profile, it sends one request, which names the patient of the profile
    it was created with, and ends with the loading flag down. *)
Theorem fetcher_frame
    (captured : option UserProfile) (w : World) (h : list Event)
    (s : State) :
  let alone := run (fetchNetworkRecommendation captured) w h s in
  outside_recommendations s (final_state alone) /\
  Forall quiet (issued alone) /\
  filter is_fetch (issued alone)
    = match captured with
      | Some profile => [advisory_request profile]
      | None => []
      end /\
  (captured <> None -> loadingRecommendations (final_state alone) = false).
Proof.
  destruct captured as [profile|]; cbn zeta.
  - rewrite fetch_run. unfold fetch_failed.
    destruct (net_fetch w (h ++ [advisory_request profile])) as [response|];
      [destruct (r_ok response);
         [destruct (parsed_body (JSON_parse w) response)|]|];
      unfold outside_recommendations, quiet; destruct s; cbn;
      repeat split; each_event.
  - unfold outside_recommendations. cbn. repeat split; try constructor.
    intros H. now elim H.
Qed.

(* ================================================================== *)
(** * Further properties of the listeners and the event loop *)
(* ================================================================== *)

(** The list the listener on [n8nResponses] stores. *)
Lemma responses_listener_run
    (docs : list json) (w : World) (h : list Event) (s : State) :
  run (onResponsesSnapshot docs) w h s =
    (Ok tt,
     with_loadingRecommendations false
       (with_recommendations
          (flat_map (fun doc => match batch_of doc with
                                | Some items => items
                                | None => []
                                end) docs) s),
     []).
Proof.
  unfold onResponsesSnapshot, run. unfold_ops. cbn.
  do 3 f_equal. f_equal.
  apply flat_map_ext. intros doc. unfold batch_of.
  destruct (prop "recommendations" doc) as [[| b | q | t | items | fields]|];
    cbn; try reflexivity;
    repeat match goal with
           | |- context [if ?b then _ else _] => destruct b
           end; reflexivity.
Qed.

(** X8.  The listener on the stored answers replaces the recommendation
    list by the members of the [recommendations] arrays of the documents,
    in the order of the documents; a document without such an array, also
    a bare recommendation, contributes nothing, and the list held before
    plays no part. *)
Theorem responses_listener_collects
    (docs : list json) (w : World) (h : list Event) (s : State) :
  let stored d := recommendations
                    (final_state (run (onResponsesSnapshot d) w h s)) in
  let alone := run (onResponsesSnapshot docs) w h s in
  settlement alone = Ok tt /\
  issued alone = [] /\
  outside_recommendations s (final_state alone) /\
  loadingRecommendations (final_state alone) = false /\
  (forall rec,
     In rec (stored docs) <->
     exists doc items,
       In doc docs /\ batch_of doc = Some items /\ In rec items) /\
  (forall more, stored (docs ++ more) = stored docs ++ stored more) /\
  (forall s', recommendations
                (final_state (run (onResponsesSnapshot docs) w h s'))
              = stored docs).
Proof.
  cbv zeta beta. rewrite !responses_listener_run. unfold_run. cbn [fst snd].
  split; [reflexivity|]. split; [reflexivity|].
  split; [unfold outside_recommendations; destruct s; cbn; tauto|].
  split; [destruct s; reflexivity|].
  split; [|split].
  - intros rec. destruct s; cbn -[batch_of]. split.
    + intros Hin. apply in_flat_map in Hin.
      destruct Hin as (doc & Hdoc & Hrec). cbn beta in Hrec.
      destruct (batch_of doc) as [items|] eqn:E; [|destruct Hrec].
      now exists doc, items.
    + intros (doc & items & Hdoc & E & Hrec).
      apply in_flat_map. exists doc. split; [exact Hdoc|]. now rewrite E.
  - intros more. rewrite !responses_listener_run.
    destruct s; cbn -[batch_of]. apply flat_map_app.
  - intros s'. rewrite responses_listener_run. destruct s, s'; reflexivity.
Qed.

(** X9.  Between any two turns of the event loop the slot never holds an
    assignment that the list of the component reports as completed: the
    effect that runs after every turn has emptied it. *)
Theorem no_completed_session_survives_a_turn (c : Config) :
  Reachable c -> forall active, ~ reported_completed (cells c) active.
Proof.
  assert (Hturn : forall c0 w origin p others active,
            ~ reported_completed (cells (turn c0 w origin p others)) active).
  { intros c0 w origin p others active. unfold turn. cbn [cells].
    destruct (reconcile_render w (log c0)
                (snd (fst (advance p w (log c0) [] (cells c0))))
                (fst (fst (advance p w (log c0) [] (cells c0)))))
      as [(a & _ & ->) | (Hno & ->)]; cbn [fst snd].
    - intros ((Hheld & _) & _).
      destruct (fst (fst (advance p w (log c0) [] (cells c0))));
        discriminate.
    - apply Hno. }
  intros Hreach. destruct Hreach as [profile is_connected | c0 c' _ Hstep].
  - intros active ((Hheld & _) & _). discriminate.
  - destruct Hstep; apply Hturn.
Qed.

Lemma no_completed_session_survives_a_turn_witness :
  Reachable (deliver (AssignedSnapshot [knee_extension_done]) cooperative
                     session_running) /\
  forall active,
    ~ reported_completed
        (cells (deliver (AssignedSnapshot [knee_extension_done]) cooperative
                        session_running))
        active.
Proof.
  assert (Hreach :
    Reachable (deliver (AssignedSnapshot [knee_extension_done]) cooperative
                       session_running)).
  { apply reach_turn with (c := session_running).
    - unfold session_running.
      repeat (eapply reach_turn;
              [| first [ apply settle_oldest_Turn; discriminate
                       | apply deliver_Turn; cbn; discriminate ] ]).
      apply (reach_mounted (Some patient_1) true).
    - apply deliver_Turn. exact I. }
  split; [exact Hreach|].
  exact (@no_completed_session_survives_a_turn _ Hreach).
Defined.

(** X10.  In the event loop an admitted start request runs up to its
    first call and is suspended there: the busy flag is up, the slot is as
    it was, the device has been told to record and nothing else has been
    issued.  In the state so reached, before any other turn is taken, a
    further start request is turned away before any side effect. *)
Theorem admitted_start_suspends_with_the_flag_up
    (c : Config) (w : World) (exercise : AssignedExercise)
    (patient : string) :
  start_admitted (cells c) patient ->
  let c' := deliver (StartClicked exercise) w c in
  cells c' = with_sessionLoading true (cells c) /\
  log c' = log c ++ [start_call exercise] /\
  (exists task, pending c' = pending c ++ [(StartClicked exercise, task)]) /\
  in_flight c' = true /\
  forall w' h' other, rejected w' h' (cells c') other.
Proof.
  intros ((Huid & Hne) & Hc & Hl & Ha) c'.
  assert (Hturn :
    c' = mkConfig (with_sessionLoading true (cells c))
                  (log c ++ [start_call exercise])
                  (pending c ++
                     match snd (advance (handleStartExercise exercise) w
                                        (log c) [] (cells c)) with
                     | Some task => [(StartClicked exercise, task)]
                     | None => []
                     end) /\
    exists task,
      snd (advance (handleStartExercise exercise) w (log c) [] (cells c))
        = Some task).
  { subst c'. unfold deliver, turn. cbn [handle].
    unfold handleStartExercise. unfold_ops. cbn -[reconcileEffect].
    rewrite Huid, (truthy_string_true Hne), Hc, Hl, Ha.
    cbn -[reconcileEffect].
    split; [|eexists; reflexivity].
    destruct (reconcile_render w (log c) [start_call exercise]
                (with_sessionLoading true (cells c)))
      as [(a & ((Hheld & Hane) & _) & _) | (_ & Hsame)].
    - exfalso. assert (Hact : activeAssignmentId (cells c) = Some a)
        by (destruct (cells c); exact Hheld).
      rewrite Hact in Ha. cbn in Ha.
      now rewrite (truthy_string_true Hane) in Ha.
    - unfold start_call in Hsame. now rewrite Hsame. }
  destruct Hturn as (-> & task & Htask). cbn [cells log pending].
  rewrite Htask.
  split; [reflexivity|]. split; [reflexivity|].
  split; [now exists task|].
  split.
  - unfold in_flight. cbn [pending].
    now apply (in_flight_session (pending c) (StartClicked exercise, task)).
  - intros w' h' other. apply start_guard_rejects.
    right; left. destruct (cells c); reflexivity.
Qed.

Lemma admitted_start_suspends_with_the_flag_up_witness :
  start_admitted ready "patient-1" /\
  sessionLoading
    (cells (deliver (StartClicked knee_extension) cooperative
                    (mkConfig ready [] []))) = true.
Proof.
  assert (Hadm : start_admitted ready "patient-1").
  { repeat split. discriminate. }
  split; [exact Hadm|].
  rewrite (proj1 (@admitted_start_suspends_with_the_flag_up
                    (mkConfig ready [] []) cooperative knee_extension
                    "patient-1" Hadm)).
  reflexivity.
Defined.

(* ================================================================== *)
(** * Further properties of the server routes *)
(* ================================================================== *)

(** The run of the second registration of the forwarder, by the answer of
    the upstream. *)
Lemma patient_query_test_run
    (w : ServerWorld) (h : list ServerEvent) (req_body : json) :
  run (patient_query_test req_body) w h tt =
    (Ok tt, tt,
     SFetch n8n_url req_body ::
       match node_fetch w (h ++ [SFetch n8n_url req_body]) with
       | Throw e =>
           [SConsoleError "❌ Error contacting n8n test webhook:" e;
            SSend 500 (JObj (("error", JStr "Failed to reach n8n test webhook")
                             :: details e))]
       | Ok response =>
           match r_text response with
           | Throw e =>
               [SConsoleError "❌ Error contacting n8n test webhook:" e;
                SSend 500
                  (JObj (("error", JStr "Failed to reach n8n test webhook")
                         :: details e))]
           | Ok text =>
               [relayed response (tolerant_parse (node_JSON_parse w) text)]
           end
       end).
Proof.
  unfold run, patient_query_test, safeParseJSON, relayed, tolerant_parse.
  unfold_ops. cbn.
  destruct (node_fetch w _) as [response|e]; cbn; [|reflexivity].
  destruct (r_text response) as [text|e]; cbn; [|reflexivity].
  destruct (node_JSON_parse w text) as [data|e]; reflexivity.
Qed.

Lemma patient_query_run
    (w : ServerWorld) (h : list ServerEvent) (req_body : json) :
  run (patient_query req_body) w h tt = run (forwarder req_body) w h tt.
Proof. unfold forwarder. now rewrite forwarder_is_first_registration. Qed.

(** The run of the users route, by the answer of the storage. *)
Lemma users_run (w : ServerWorld) (h : list ServerEvent) (req_body : json) :
  run (users req_body) w h tt =
    (Ok tt, tt,
     match storage_getAllUsers w with
     | None => [SSend 200 (JArr [])]
     | Some method =>
         SGetAllUsers ::
           match method (h ++ [SGetAllUsers]) with
           | Ok (Some found) =>
               [SSend 200 (if truthy_json (Some found) then found
                           else JArr [])]
           | Ok None => [SSend 200 (JArr [])]
           | Throw e =>
               [SConsoleError "❌ Error fetching users:" e;
                SSend 500 (JObj [("error", JStr "Failed to fetch users")])]
           end
     end).
Proof.
  unfold run, users, getAllUsers. unfold_ops. cbn.
  destruct (storage_getAllUsers w) as [method|] eqn:E; cbn; [|reflexivity].
  rewrite E. destruct (method _) as [[found|]|e]; reflexivity.
Qed.

(** X11.  The users route answers 200 with the list the storage returns
    when that value is truthy, and 200 with an empty list when the storage
    has no [getAllUsers], which is then not called, or returns a falsy
    value.  It answers 500 only when the call fails; the body then says so
    without the text of the error, which goes to the log. *)
Theorem users_route_answers
    (w : ServerWorld) (h : list ServerEvent) (req_body : json) :
  let alone := run (users req_body) w h tt in
  settlement alone = Ok tt /\
  (storage_getAllUsers w = None -> issued alone = [SSend 200 (JArr [])]) /\
  (forall method,
     storage_getAllUsers w = Some method ->
     (forall found,
        method (h ++ [SGetAllUsers]) = Ok (Some found) ->
        truthy_json (Some found) = true ->
        issued alone = [SGetAllUsers; SSend 200 found]) /\
     (forall found,
        method (h ++ [SGetAllUsers]) = Ok found ->
        truthy_json found = false ->
        issued alone = [SGetAllUsers; SSend 200 (JArr [])]) /\
     (forall error,
        method (h ++ [SGetAllUsers]) = Throw error ->
        issued alone
          = [SGetAllUsers;
             SConsoleError "❌ Error fetching users:" error;
             SSend 500 (JObj [("error", JStr "Failed to fetch users")])])).
Proof.
  cbv zeta. rewrite users_run. unfold_run. cbn [fst snd].
  split; [reflexivity|]. split.
  - now intros ->.
  - intros method ->. repeat split.
    + now intros found -> ->.
    + intros [found|] ->; [now intros -> | reflexivity].
    + now intros error ->.
Qed.

(** X12.  Every registered handler answers every request exactly once, as
    the last thing it does, and returns normally, whatever the storage and
    the upstream do. *)
Theorem every_route_answers_once
    (method : Method) (pattern : string) (handler : json -> Srv unit) :
  In (method, pattern, handler) registerRoutes ->
  forall w h req_body,
    let alone := run (handler req_body) w h tt in
    settlement alone = Ok tt /\ answers_once (issued alone).
Proof.
  intros Hin w h req_body.
  destruct Hin as [[= <- <- <-] | [[= <- <- <-] | [[= <- <- <-]
                  | [[= <- <- <-] | []]]]]; cbv zeta.
  - split; [reflexivity|]. now exists [], 200, (JObj [("status", JStr "ok");
                  ("message", JStr "Server is running 🚀")]).
  - rewrite users_run. split; [reflexivity|]. unfold_run. cbn [snd].
    destruct (storage_getAllUsers w) as [storage|].
    + destruct (storage _) as [[found|]|e].
      * now eexists [SGetAllUsers], _, _.
      * now eexists [SGetAllUsers], _, _.
      * now eexists [SGetAllUsers; SConsoleError _ e], _, _.
    + now eexists [], _, _.
  - rewrite patient_query_run, forwarder_run. split; [reflexivity|].
    unfold_run. cbn [snd]. unfold transport_failure, relayed.
    destruct (node_fetch w _) as [response|e].
    + destruct (r_text response) as [text|e].
      * now eexists [SFetch _ _], _, _.
      * now eexists [SFetch _ _; SConsoleError _ e], _, _.
    + now eexists [SFetch _ _; SConsoleError _ e], _, _.
  - rewrite patient_query_test_run. split; [reflexivity|].
    unfold_run. cbn [snd]. unfold relayed.
    destruct (node_fetch w _) as [response|e].
    + destruct (r_text response) as [text|e].
      * now eexists [SFetch _ _], _, _.
      * now eexists [SFetch _ _; SConsoleError _ e], _, _.
    + now eexists [SFetch _ _; SConsoleError _ e], _, _.
Qed.

Lemma every_route_answers_once_witness :
  answers_once (issued (run (users JNull) users_fail [] tt)).
Proof.
  apply (@every_route_answers_once GET "/api/users" users).
  right; left; reflexivity.
Defined.

(** X13.  A request is answered by the health route, the users route or
    the first registration of the forwarder, never by the second
    registration for the same method and path.  The two registrations
    behave alike while the upstream answers and its body can be read, and
    differ in the error they report otherwise. *)
Theorem second_forwarder_is_shadowed :
  (forall method pattern handler,
     route method pattern = Some handler ->
     handler = health \/ handler = users \/ handler = patient_query) /\
  (forall w h req_body response text,
     node_fetch w (h ++ [SFetch n8n_url req_body]) = Ok response ->
     r_text response = Ok text ->
     run (patient_query_test req_body) w h tt
       = run (patient_query req_body) w h tt) /\
  (forall w h req_body error,
     node_fetch w (h ++ [SFetch n8n_url req_body]) = Throw error ->
     run (patient_query_test req_body) w h tt
       <> run (patient_query req_body) w h tt).
Proof.
  split; [|split].
  - intros method pattern handler. unfold route, registerRoutes.
    cbn -[String.eqb].
    destruct method; cbn -[String.eqb];
      repeat match goal with
             | |- context [String.eqb ?a pattern] =>
                 destruct (String.eqb a pattern); cbn -[String.eqb]
             end;
      intros [= <-]; tauto.
  - intros w h req_body response text Hup Htext.
    rewrite patient_query_test_run, patient_query_run, forwarder_run.
    now rewrite Hup, Htext.
  - intros w h req_body error Hup.
    rewrite patient_query_test_run, patient_query_run, forwarder_run.
    rewrite Hup. unfold transport_failure. intros [=].
Qed.

(* ================================================================== *)
(** * Properties of ExerciseCard and of the cards of the dashboard *)
(* ================================================================== *)

Lemma Status_eqb_completed (st : Status) :
  Status_eqb st completed = false <-> st <> completed.
Proof. destruct st; cbn; split; congruence. Qed.

Lemma is_active_holds (s : State) (exercise : AssignedExercise) :
  is_active s exercise = true <-> activeAssignmentId s = Some (id exercise).
Proof.
  unfold is_active. destruct (activeAssignmentId s) as [active|].
  - rewrite String.eqb_eq. split; congruence.
  - split; discriminate.
Qed.

Ltac card_case :=
  cbn; repeat split; intros;
  try match goal with
      | H : Some _ = Some _ |- _ => injection H as <-
      end;
  cbn in *; repeat split;
  try solve [ reflexivity | discriminate | congruence | tauto
            | intuition congruence ].

(** X14.  A card never shows both buttons, and shows none exactly when the
    exercise is completed.  The stop button is shown exactly on the active
    card of an exercise that is not completed, while the device records; a
    start button shown while the device records is disabled; the banner of
    the completion is shown only for a completed exercise with a
    completion time. *)
Theorem card_offers_one_action (p : CardProps) :
  let view := ExerciseCard p in
  (v_start view = None \/ v_stop view = None) /\
  (v_start view = None /\ v_stop view = None <->
   status (cp_exercise p) = completed) /\
  (v_stop view <> None <->
   status (cp_exercise p) <> completed /\
   cp_isActive p = true /\ cp_isRecording p = true) /\
  (forall button,
     v_start view = Some button -> cp_isRecording p = true ->
     b_disabled button = true) /\
  (v_completedAt view <> None ->
   status (cp_exercise p) = completed /\
   v_completedAt view = completedAt (cp_exercise p)).
Proof.
  destruct p as [exercise onStart onStop progress isActive isRecording
                   disabled loading].
  unfold ExerciseCard. cbn.
  destruct (status exercise); destruct isActive, isRecording; cbn;
    repeat split; try tauto; try discriminate; try congruence;
    try (intros; intuition congruence).
  all: try (intros button [= <-]; cbn; intros; congruence).
  all: destruct (truthy_number (completedAt exercise)); cbn; congruence.
Qed.

(** X15.  On the dashboard a start button always reads "Start Exercise":
    the label of a start under way is never shown.  While a sequence is
    under way the start buttons of all cards but the active one are
    disabled, and the stop button is disabled and reads "Finishing...".
    The progress shown is 100 exactly when no button is. *)
Theorem dashboard_cards
    (s : State) (isRecording : bool) (exercise : AssignedExercise) :
  let view := card s isRecording exercise in
  (forall button,
     v_start view = Some button ->
     b_label button = "Start Exercise" /\
     b_onClick button = Some (StartClicked exercise) /\
     (sessionLoading s = true ->
      activeAssignmentId s <> Some (id exercise) ->
      b_disabled button = true)) /\
  (forall button,
     v_stop view = Some button ->
     activeAssignmentId s = Some (id exercise) /\
     b_onClick button = Some StopClicked /\
     b_disabled button = sessionLoading s /\
     b_label button = if sessionLoading s then "Finishing..."
                      else "Stop & Complete") /\
  (v_progress view = 100 <-> v_start view = None /\ v_stop view = None).
Proof.
  unfold card, cardProps, ExerciseCard. cbn.
  pose proof (is_active_holds s exercise) as Hact.
  destruct (is_active s exercise).
  - assert (Heq : activeAssignmentId s = Some (id exercise))
      by now apply Hact.
    destruct (status exercise), isRecording, (sessionLoading s);
      card_case.
  - assert (Hne : activeAssignmentId s <> Some (id exercise)).
    { intros H. apply Hact in H. discriminate. }
    destruct (status exercise), isRecording, (sessionLoading s);
      card_case.
Qed.

(** X16.  For a duration of a whole, non-negative number of seconds the
    minutes and seconds shown add up to the duration, with fewer than
    sixty seconds. *)
Theorem card_duration (p : CardProps) :
  0 <= targetDuration (cp_exercise p) ->
  let view := ExerciseCard p in
  60 * v_minutes view + v_seconds view = targetDuration (cp_exercise p) /\
  0 <= v_seconds view < 60.
Proof.
  intros Hd. unfold ExerciseCard. cbn [v_minutes v_seconds].
  rewrite Z.rem_mod_nonneg; [| exact Hd | reflexivity]. split.
  - symmetry. apply Z.div_mod. discriminate.
  - apply Z.mod_pos_bound. reflexivity.
Qed.

Lemma card_duration_witness :
  0 <= targetDuration knee_extension /\
  60 * v_minutes (ExerciseCard (cardProps ready false knee_extension))
    + v_seconds (ExerciseCard (cardProps ready false knee_extension)) = 60.
Proof.
  assert (Hd : 0 <= targetDuration knee_extension) by (cbn; discriminate).
  split; [exact Hd|].
  exact (proj1 (@card_duration (cardProps ready false knee_extension) Hd)).
Defined.

Lemma shows_stop_active (s : State) (isRecording : bool)
    (exercise : AssignedExercise) :
  shows_stop (card s isRecording exercise) = true ->
  activeAssignmentId s = Some (id exercise).
Proof.
  unfold shows_stop, card, cardProps, ExerciseCard. cbn.
  pose proof (is_active_holds s exercise) as Hact.
  destruct (is_active s exercise); [intros _; now apply Hact|].
  now rewrite andb_false_r.
Qed.

Lemma no_stop_off_the_list (s : State) (isRecording : bool)
    (active : string) (exercises : list AssignedExercise) :
  activeAssignmentId s = Some active ->
  ~ In active (map id exercises) ->
  filter shows_stop (map (card s isRecording) exercises) = [].
Proof.
  intros Hact. induction exercises as [|exercise rest IH]; [reflexivity|].
  intros Hnot. cbn [map filter].
  destruct (shows_stop (card s isRecording exercise)) eqn:Hshow.
  - exfalso. apply Hnot. left.
    apply shows_stop_active in Hshow. congruence.
  - apply IH. intros Hin. apply Hnot. now right.
Qed.

(** X17.  When the assigned exercises have distinct ids, at most one card
    of the panel shows a stop button. *)
Theorem one_stop_button
    (s : State) (isRecording : bool) (cards : list CardView) :
  NoDup (map id (assignedExercises s)) ->
  assignedExercisesPanel s isRecording = Cards cards ->
  (length (filter shows_stop cards) <= 1)%nat.
Proof.
  intros Hdistinct. unfold assignedExercisesPanel.
  destruct (loadingExercises s); [discriminate|].
  destruct (length (assignedExercises s) =? 0)%nat; [discriminate|].
  intros [= <-]. fold (card s isRecording).
  induction (assignedExercises s) as [|exercise rest IH];
    [apply Nat.le_0_l|].
  cbn [map filter]. inversion Hdistinct as [|? ? Hfresh Hrest]; subst.
  destruct (shows_stop (card s isRecording exercise)) eqn:Hshow.
  - apply shows_stop_active in Hshow.
    rewrite (no_stop_off_the_list s isRecording rest Hshow Hfresh).
    apply le_n.
  - now apply IH.
Qed.

(** Two cards, the first active while the device records: the first
    shows the stop button, the second the start button, disabled. *)
Lemma one_stop_button_witness :
  NoDup (map id (assignedExercises two_listed)) /\
  assignedExercisesPanel two_listed recording
    = Cards [card two_listed recording knee_extension_running;
             card two_listed recording heel_slides] /\
  map shows_stop [card two_listed recording knee_extension_running;
                  card two_listed recording heel_slides]
    = [true; false] /\
  (length (filter shows_stop
             [card two_listed recording knee_extension_running;
              card two_listed recording heel_slides])
   <= 1)%nat.
Proof.
  assert (Hdistinct : NoDup (map id (assignedExercises two_listed))).
  { cbn. constructor; [intros [H | []]; discriminate|].
    constructor; [intros [] | constructor]. }
  assert (Hpanel :
    assignedExercisesPanel two_listed recording
      = Cards [card two_listed recording knee_extension_running;
               card two_listed recording heel_slides])
    by reflexivity.
  split; [exact Hdistinct|]. split; [exact Hpanel|].
  split; [reflexivity|].
  exact (@one_stop_button two_listed recording _ Hdistinct Hpanel).
Defined.

(** X18.  Whenever the guards of the start handler would let a request
    through, the card of an exercise that is not completed offers an
    enabled start button that makes this request, as long as the device
    does not record. *)
Theorem admitted_start_is_offered
    (s : State) (patient : string) (exercise : AssignedExercise) :
  start_admitted s patient ->
  status exercise <> completed ->
  v_start (card s false exercise)
    = Some (mkButton "Start Exercise" false (Some (StartClicked exercise))).
Proof.
  intros (_ & _ & Hflag & _) Hst.
  unfold card, cardProps, ExerciseCard. cbn. rewrite Hflag. cbn.
  destruct (status exercise); [| |congruence];
    cbn; now rewrite ?orb_true_r, ?andb_false_r.
Qed.

Lemma admitted_start_is_offered_witness :
  start_admitted ready "patient-1" /\
  status knee_extension <> completed /\
  v_start (card ready false knee_extension)
    = Some (mkButton "Start Exercise" false
                     (Some (StartClicked knee_extension))).
Proof.
  assert (Hadm : start_admitted ready "patient-1").
  { repeat split. discriminate. }
  assert (Hst : status knee_extension <> completed) by discriminate.
  split; [exact Hadm|]. split; [exact Hst|].
  exact (@admitted_start_is_offered ready "patient-1" knee_extension
           Hadm Hst).
Defined.

(** X19.  The stop button of a card makes the stop request, and the stop
    sequence it starts for a signed-in patient stops the device and marks
    as completed the assignment of that very card. *)
Theorem stop_button_completes_its_exercise
    (s : State) (isRecording : bool) (exercise : AssignedExercise)
    (button : Button) (patient : string) (w : World) (h : list Event) :
  v_stop (card s isRecording exercise) = Some button ->
  signed_in s patient ->
  id exercise <> "" ->
  exists request rest,
    b_onClick button = Some request /\
    issued (run (handle request) w h s)
      = EStopRecording
          :: completed_write w h patient (id exercise) :: rest.
Proof.
  intros Hbutton Hp Hid.
  assert (Hshow : shows_stop (card s isRecording exercise) = true)
    by (unfold shows_stop; now rewrite Hbutton).
  apply shows_stop_active in Hshow.
  assert (Hheld : holds s (id exercise)) by now split.
  exists StopClicked. eexists. split.
  - revert Hbutton. unfold card, cardProps, ExerciseCard. cbn.
    destruct (_ && _); [|discriminate]. now intros [= <-].
  - cbn [handle]. rewrite (stop_sequence_run w h Hp Hheld). reflexivity.
Qed.

Lemma stop_button_completes_its_exercise_witness :
  exists request rest,
    v_stop (card in_session recording knee_extension)
      = Some (mkButton "Stop & Complete" false (Some request)) /\
    issued (run (handle request) cooperative [] in_session)
      = EStopRecording
          :: completed_write cooperative [] "patient-1" "E1" :: rest.
Proof.
  assert (Hbutton :
    v_stop (card in_session recording knee_extension)
      = Some (mkButton "Stop & Complete" false (Some StopClicked)))
    by (vm_compute; reflexivity).
  assert (Hp : signed_in in_session "patient-1")
    by (split; [vm_compute; reflexivity | discriminate]).
  assert (Hid : id knee_extension <> "") by discriminate.
  destruct (@stop_button_completes_its_exercise in_session recording
              knee_extension _ "patient-1" cooperative [] Hbutton Hp Hid)
    as (request & rest & Hclick & Hrun).
  exists request, rest. split; [|exact Hrun].
  cbn in Hclick. injection Hclick as <-. exact Hbutton.
Defined.

(* ================================================================== *)
(** * The cells of each handler, across the turns of the event loop *)
(* ================================================================== *)

Ltac frame_leaf :=
  solve [ unfold within;
          repeat match goal with s : State |- _ => destruct s end;
          cbn; repeat split;
          solve [ reflexivity | left; reflexivity | right; reflexivity ] ].

Lemma within_cleared (origin : Msg) (s0 s : State) :
  within origin s0 s -> within origin s0 (slot_cleared s).
Proof.
  unfold within. intros (Hu & Hc & He & Hr & Hf & Hs).
  destruct origin, s; cbn in *; repeat split; try tauto; now right.
Qed.

Lemma start_framed (exercise : AssignedExercise) (s : State) :
  framed (StartClicked exercise) true (handleStartExercise exercise) s s.
Proof.
  unfold framed, handleStartExercise. unfold_ops. cbn.
  destruct (profile_uid s) as [patient|]; cbn; [|frame_leaf].
  destruct (truthy_string patient); cbn; [|frame_leaf].
  destruct (connected s); cbn; [|frame_leaf].
  destruct (sessionLoading s || truthy (activeAssignmentId s)); cbn;
    [frame_leaf|].
  walk; frame_leaf.
Qed.

Lemma stop_framed (s : State) :
  framed StopClicked true handleCompleteExercise s s.
Proof.
  unfold framed, handleCompleteExercise. unfold_ops. cbn.
  destruct (profile_uid s) as [patient|]; cbn; [|frame_leaf].
  destruct (activeAssignmentId s) as [active|]; cbn; [|frame_leaf].
  destruct (negb (truthy_string patient) || negb (truthy_string active));
    cbn; [frame_leaf|].
  walk; try frame_leaf.
  all: destruct (activeProgressId s) as [progress|]; cbn; try frame_leaf.
  all: destruct (truthy_string progress); walk; frame_leaf.
Qed.

Lemma fetch_framed (captured : option UserProfile) (s : State) :
  framed (FetchTimer captured) true (fetchNetworkRecommendation captured)
         s s.
Proof.
  unfold framed, fetchNetworkRecommendation. unfold_ops.
  destruct captured as [profile|]; cbn; [|frame_leaf].
  walk; try frame_leaf.
  match goal with |- context [r_ok ?response] => destruct (r_ok response) end;
    walk; try frame_leaf.
  match goal with
  | |- context [prop "recommendations" ?data] =>
      destruct (truthy_json (prop "recommendations" data)
                && isArray (prop "recommendations" data)); cbn;
      [ destruct (prop "recommendations" data) as [[| | | | |]|]
      | destruct (truthy_json (prop "recommendedExercise" data)) ]
  end; cbn; frame_leaf.
Qed.

Lemma handle_framed (m : Msg) (s : State) : framed m true (handle m) s s.
Proof.
  destruct m; cbn [handle].
  - unfold framed. cbn. frame_leaf.
  - unfold framed. cbn. frame_leaf.
  - unfold framed, whenProfile, onAssignedSnapshot.
    unfold_ops. cbn. destruct (userProfile s) eqn:E; cbn; frame_leaf.
  - unfold framed, whenProfile, onResponsesSnapshot.
    unfold_ops. cbn. destruct (userProfile s) eqn:E; cbn; frame_leaf.
  - apply fetch_framed.
  - apply start_framed.
  - apply stop_framed.
Qed.

(** A turn of a framed program, next to framed others. *)
Lemma turn_framed (c : Config) (w : World) (origin : Msg) (fresh : bool)
    (p : Dash unit) (others : list (Msg * DashTask)) :
  framed origin fresh p (cells c) (cells c) ->
  Forall task_framed others ->
  within origin (cells c) (cells (turn c w origin p others)) /\
  Forall task_framed (pending (turn c w origin p others)).
Proof.
  intros Hp Hothers. unfold turn. cbn [cells pending].
  set (seg := advance p w (log c) [] (cells c)) in *.
  pose proof (advance_obeys w (log c) [] Hp) as H. fold seg in H.
  destruct seg as [[s1 out1] [[R awaited k]|]]; cbn [fst snd] in *.
  - destruct H as (Hawait & Hk). split.
    + destruct (reconcile_render w (log c) out1 s1)
        as [(a & _ & ->) | (_ & ->)]; cbn [fst];
        [now apply within_cleared | exact Hawait].
    + apply Forall_app. split; [exact Hothers|].
      constructor; [|constructor]. intros r s. now apply Hk.
  - assert (Hend : within origin (cells c) s1) by now destruct fresh.
    rewrite app_nil_r. split; [|exact Hothers].
    destruct (reconcile_render w (log c) out1 s1)
      as [(a & _ & ->) | (_ & ->)]; cbn [fst];
      [now apply within_cleared | exact Hend].
Qed.

Lemma reachable_framed (c : Config) :
  Reachable c -> Forall task_framed (pending c).
Proof.
  induction 1 as [profile is_connected | c c' _ IH Hturn]; [constructor|].
  destruct Hturn as [c w m _ | c w origin R awaited k before after Hp].
  - apply turn_framed with (fresh := true); [apply handle_framed | exact IH].
  - rewrite Hp in IH. apply Forall_app in IH as (Hb & Ha).
    inversion Ha as [|task rest Htask Hafter]; subst.
    apply turn_framed with (fresh := false);
      [apply Htask | now apply Forall_app].
Qed.

(** X20.  In the event loop every handler keeps to its own cells, in the
    turn of its message and in every turn in which it is resumed,
    whatever ran in between: the listeners and the fetcher leave the busy
    flag alone, the session handlers leave the lists and their loading
    flags alone, and only a resumed start sequence fills the slot; any
    other turn leaves the slot as it was or empty. *)
Theorem handlers_keep_to_their_cells (c : Config) (w : World) :
  Reachable c ->
  (forall m, within m (cells c) (cells (deliver m w c))) /\
  (forall origin R (awaited : Call R) k before after,
     pending c = before ++ (origin, Suspended awaited k) :: after ->
     within origin (cells c)
       (cells (turn c w origin (k (settle awaited w (log c)))
                    (before ++ after)))).
Proof.
  intros Hreach. pose proof (reachable_framed Hreach) as Htasks. split.
  - intros m. unfold deliver.
    now apply turn_framed with (fresh := true); [apply handle_framed|].
  - intros origin R awaited k before after Hp.
    rewrite Hp in Htasks. apply Forall_app in Htasks as (Hb & Ha).
    inversion Ha as [|task rest Htask Hafter]; subst.
    now apply turn_framed with (fresh := false);
      [apply Htask | apply Forall_app].
Qed.

Lemma handlers_keep_to_their_cells_witness :
  Reachable (mkConfig ready [] []) /\
  within (StartClicked knee_extension) ready
         (cells (deliver (StartClicked knee_extension) cooperative
                         (mkConfig ready [] []))).
Proof.
  assert (Hreach : Reachable (mkConfig ready [] []))
    by apply (reach_mounted (Some patient_1) true).
  split; [exact Hreach|].
  apply (proj1 (@handlers_keep_to_their_cells (mkConfig ready [] [])
                  cooperative Hreach)).
Defined.

(** X21.  Once a snapshot of the assigned exercises has been delivered to
    a signed-in component, the panel shows no spinner: it shows the
    placeholder when the snapshot is empty, and otherwise one card for
    each exercise of the snapshot, in its order. *)
Theorem snapshot_shows_the_exercises
    (c : Config) (w : World) (exercises : list AssignedExercise)
    (profile : UserProfile) (isRecording : bool) :
  userProfile (cells c) = Some profile ->
  let c' := deliver (AssignedSnapshot exercises) w c in
  assignedExercises (cells c') = exercises /\
  assignedExercisesPanel (cells c') isRecording =
    match exercises with
    | [] => NoExercises
    | _ => Cards (map (card (cells c') isRecording) exercises)
    end.
Proof.
  intros Hp c'. subst c'. rewrite (snapshot_turn c w exercises Hp).
  cbv zeta. cbn [cells].
  set (stored := with_loadingExercises false
                   (with_assignedExercises exercises (cells c))).
  assert (Hl : assignedExercises stored = exercises /\
               loadingExercises stored = false)
    by (subst stored; destruct (cells c); now split).
  destruct (reconcile_render w (log c) [] stored)
    as [(a & _ & ->) | (_ & ->)]; cbn [fst].
  - assert (Hc : assignedExercises (slot_cleared stored) = exercises /\
                 loadingExercises (slot_cleared stored) = false)
      by (destruct stored; exact Hl).
    destruct Hc as (He & Hf). split; [exact He|].
    unfold assignedExercisesPanel. rewrite Hf, He.
    now destruct exercises.
  - destruct Hl as (He & Hf). split; [exact He|].
    unfold assignedExercisesPanel. rewrite Hf, He.
    now destruct exercises.
Qed.

Lemma snapshot_shows_the_exercises_witness :
  userProfile (cells (mkConfig ready [] [])) = Some patient_1 /\
  assignedExercisesPanel
    (cells (deliver (AssignedSnapshot []) cooperative
                    (mkConfig ready [] []))) false = NoExercises.
Proof.
  split; [reflexivity|].
  exact (proj2 (@snapshot_shows_the_exercises (mkConfig ready [] [])
                  cooperative [] patient_1 false eq_refl)).
Defined.

(* ================================================================== *)
(** * The delayed fetch after a completion *)
(* ================================================================== *)

(** X22.  A stop sequence schedules the delayed fetch exactly when its
    writes went through: once, two seconds ahead, for the profile of the
    render in which the stop was requested.  After a failed write it
    schedules none, and a start request never schedules one. *)
Theorem refetch_follows_a_completed_stop
    (w : World) (h : list Event) (s : State) (patient active : string) :
  signed_in s patient -> holds s active ->
  let alone := run handleCompleteExercise w h s in
  (completed_outcome w h patient active = Ok tt ->
   (forall progress,
      progress_record s = Some progress ->
      progress_outcome w h patient active progress = Ok tt) ->
   filter is_timer (issued alone) = [ESetTimeout 2000 (userProfile s)]) /\
  (forall error,
     completed_outcome w h patient active = Throw error \/
     (completed_outcome w h patient active = Ok tt /\
      exists progress,
        progress_record s = Some progress /\
        progress_outcome w h patient active progress = Throw error) ->
     filter is_timer (issued alone) = []) /\
  (forall exercise w' h',
     filter is_timer (issued (run (handleStartExercise exercise) w' h' s))
       = []).
Proof.
  intros Hp Ha alone. subst alone. rewrite (stop_sequence_run w h Hp Ha).
  unfold_run. cbn [snd]. split; [|split].
  - intros -> Hprogress. unfold stop_success.
    destruct (progress_record s) as [progress|]; [|reflexivity].
    now rewrite (Hprogress progress eq_refl).
  - intros error [-> | (-> & progress & -> & ->)]; reflexivity.
  - intros exercise w' h'.
    destruct (start_guard_cases w' h' s exercise) as [(q & Hadm) | ->].
    + rewrite (start_sequence_run w' h' exercise Hadm). unfold start_failure.
      destruct (start_outcome w' h' exercise);
        [destruct (in_progress_outcome w' h' q exercise);
           [destruct (create_outcome w' h' q exercise)|]|];
        cbn;
        repeat match goal with
               | |- context [store_updateAssignedExercise ?w0 ?h0] =>
                   destruct (store_updateAssignedExercise w0 h0)
               end;
        reflexivity.
    + unfold rejection_notice. cbn [snd].
      destruct (profile_uid s) as [u|]; [|reflexivity].
      destruct (truthy_string u); [|reflexivity].
      now destruct (connected s).
Qed.

Lemma refetch_follows_a_completed_stop_witness :
  signed_in in_session "patient-1" /\ holds in_session "E1" /\
  filter is_timer
    (issued (run handleCompleteExercise progress_writes_fail [] in_session))
    = [].
Proof.
  assert (Hp : signed_in in_session "patient-1")
    by (split; [vm_compute; reflexivity | discriminate]).
  assert (Ha : holds in_session "E1")
    by (split; [vm_compute; reflexivity | discriminate]).
  split; [exact Hp|]. split; [exact Ha|].
  apply (proj1 (proj2 (@refetch_follows_a_completed_stop
                         progress_writes_fail [] in_session "patient-1" "E1"
                         Hp Ha)) (an_Error "permission-denied")).
  right. split; [reflexivity|]. exists "P1". split; reflexivity.
Defined.

(* ================================================================== *)
(** * The turns that lower the busy flag *)
(* ================================================================== *)

Ltac hold_leaf :=
  solve [ unfold flag_held;
          repeat match goal with s : State |- _ => destruct s end;
          cbn; repeat split; intros;
          first [ assumption | reflexivity | exact I ] ].

Lemma start_holding (exercise : AssignedExercise) (s : State) :
  holding (StartClicked exercise) true (handleStartExercise exercise) s s.
Proof.
  unfold holding, handleStartExercise. unfold_ops. cbn.
  destruct (profile_uid s) as [patient|]; cbn; [|hold_leaf].
  destruct (truthy_string patient); cbn; [|hold_leaf].
  destruct (connected s); cbn; [|hold_leaf].
  destruct (sessionLoading s || truthy (activeAssignmentId s)); cbn;
    [hold_leaf|].
  walk; hold_leaf.
Qed.

Lemma stop_holding (s : State) :
  holding StopClicked true handleCompleteExercise s s.
Proof.
  unfold holding, handleCompleteExercise. unfold_ops. cbn.
  destruct (profile_uid s) as [patient|]; cbn; [|hold_leaf].
  destruct (activeAssignmentId s) as [active|]; cbn; [|hold_leaf].
  destruct (negb (truthy_string patient) || negb (truthy_string active));
    cbn; [hold_leaf|].
  walk; try hold_leaf.
  all: destruct (activeProgressId s) as [progress|]; cbn; try hold_leaf.
  all: destruct (truthy_string progress); walk; hold_leaf.
Qed.

Lemma fetch_holding (captured : option UserProfile) (s : State) :
  holding (FetchTimer captured) true (fetchNetworkRecommendation captured)
          s s.
Proof.
  unfold holding, fetchNetworkRecommendation. unfold_ops.
  destruct captured as [profile|]; cbn; [|hold_leaf].
  walk; try hold_leaf.
  match goal with |- context [r_ok ?response] => destruct (r_ok response) end;
    walk; try hold_leaf.
  match goal with
  | |- context [prop "recommendations" ?data] =>
      destruct (truthy_json (prop "recommendations" data)
                && isArray (prop "recommendations" data)); cbn;
      [ destruct (prop "recommendations" data) as [[| | | | |]|]
      | destruct (truthy_json (prop "recommendedExercise" data)) ]
  end; cbn; hold_leaf.
Qed.

Lemma handle_holding (m : Msg) (s : State) : holding m true (handle m) s s.
Proof.
  destruct m; cbn [handle].
  - unfold holding. cbn. hold_leaf.
  - unfold holding. cbn. hold_leaf.
  - unfold holding, whenProfile, onAssignedSnapshot.
    unfold_ops. cbn. destruct (userProfile s) eqn:E; cbn; hold_leaf.
  - unfold holding, whenProfile, onResponsesSnapshot.
    unfold_ops. cbn. destruct (userProfile s) eqn:E; cbn; hold_leaf.
  - apply fetch_holding.
  - apply start_holding.
  - apply stop_holding.
Qed.

(** The render that ends a turn leaves the busy flag as it is. *)
Lemma render_flag (w : World) (h out : list Event) (s : State) :
  sessionLoading (fst (fst (advance reconcileEffect w h out s)))
    = sessionLoading s.
Proof.
  destruct (reconcile_render w h out s) as [(a & _ & ->) | (_ & ->)];
    cbn [fst]; [destruct s|]; reflexivity.
Qed.

(** A turn of a program that holds the flag, next to others that do. *)
Lemma turn_holding (c : Config) (w : World) (origin : Msg) (fresh : bool)
    (p : Dash unit) (others : list (Msg * DashTask)) :
  holding origin fresh p (cells c) (cells c) ->
  Forall task_holding others ->
  Forall task_holding (pending (turn c w origin p others)) /\
  (sessionLoading (cells c) = true ->
   sessionLoading (cells (turn c w origin p others)) = true \/
   (is_session_request origin = true /\ fresh = false /\
    pending (turn c w origin p others) = others)).
Proof.
  intros Hp Hothers. unfold turn. cbn [cells pending].
  set (seg := advance p w (log c) [] (cells c)) in *.
  pose proof (advance_obeys w (log c) [] Hp) as H. fold seg in H.
  destruct seg as [[s1 out1] [[R awaited k]|]]; cbn [fst snd] in *;
    rewrite render_flag.
  - destruct H as (Hawait & Hk). split.
    + apply Forall_app. split; [exact Hothers|].
      constructor; [|constructor]. intros r s. now apply Hk.
    + intros Hup. left. now apply Hawait.
  - rewrite app_nil_r. split; [exact Hothers|]. intros Hup.
    destruct fresh; [left; now apply H|].
    destruct (is_session_request origin);
      [right; now repeat split | left; now apply H].
Qed.

Arguments turn_holding c w {origin fresh p others} _ _.

Lemma reachable_holding (c : Config) :
  Reachable c -> Forall task_holding (pending c).
Proof.
  induction 1 as [profile is_connected | c c' _ IH Hturn]; [constructor|].
  destruct Hturn as [c w m _ | c w origin R awaited k before after Hp].
  - apply turn_holding with (fresh := true);
      [apply handle_holding | exact IH].
  - rewrite Hp in IH. apply Forall_app in IH as (Hb & Ha).
    inversion Ha as [|task rest Htask Hafter]; subst.
    apply turn_holding with (fresh := false);
      [apply Htask | now apply Forall_app].
Qed.

(** X23.  In the event loop the busy flag, once up, stays up through
    every turn but one: the turn in which a start or a stop sequence,
    resumed after an [await], comes to its end.  No request, listener,
    timer or sequence that is suspended again lowers it. *)
Theorem busy_flag_lowered_only_at_an_end (c : Config) (w : World) :
  Reachable c ->
  sessionLoading (cells c) = true ->
  (forall m, sessionLoading (cells (deliver m w c)) = true) /\
  (forall origin R (awaited : Call R) k before after,
     pending c = before ++ (origin, Suspended awaited k) :: after ->
     let c' := turn c w origin (k (settle awaited w (log c)))
                    (before ++ after) in
     sessionLoading (cells c') = true \/
     (is_session_request origin = true /\ pending c' = before ++ after)).
Proof.
  intros Hreach Hup. pose proof (reachable_holding Hreach) as Htasks. split.
  - intros m. unfold deliver.
    destruct (proj2 (turn_holding c w (handle_holding m (cells c)) Htasks)
                Hup) as [Hkept | (_ & Hfresh & _)];
      [exact Hkept | discriminate].
  - intros origin R awaited k before after Hp c'. subst c'.
    rewrite Hp in Htasks. apply Forall_app in Htasks as (Hb & Ha).
    inversion Ha as [|task rest Htask Hafter]; subst.
    assert (Hothers : Forall task_holding (before ++ after))
      by now apply Forall_app.
    destruct (proj2 (turn_holding c w
                       (Htask (settle awaited w (log c)) (cells c))
                       Hothers) Hup)
      as [Hkept | (Horigin & _ & Hended)];
      [now left | right; now split].
Qed.

Lemma busy_flag_lowered_only_at_an_end_witness :
  Reachable start_suspended /\
  sessionLoading (cells start_suspended) = true /\
  sessionLoading
    (cells (deliver (FetchTimer (Some patient_1)) cooperative
                    start_suspended)) = true.
Proof.
  assert (Hreach : Reachable start_suspended).
  { unfold start_suspended. eapply reach_turn;
      [apply (reach_mounted (Some patient_1) true)|].
    apply deliver_Turn. cbn. discriminate. }
  split; [exact Hreach|]. split; [reflexivity|].
  exact (proj1 (@busy_flag_lowered_only_at_an_end start_suspended
                  cooperative Hreach eq_refl)
               (FetchTimer (Some patient_1))).
Defined.
